(** * base-monitor-bot: a shallow embedding of [bot.js]

    The bot polls a transfer feed for a set of monitored addresses, filters
    the records (blacklist, dust threshold), sends alerts through a chat
    channel and keeps a per-address block watermark ([lastBlock]).

    Modelling conventions.
    - JavaScript strings are [string]s (byte strings).  [toLowerCase] and
      [trim] act on the ASCII letters and the ASCII white space; the
      addresses, block numbers and amounts the bot handles are ASCII.
    - [parseInt] yields [NaN] or an integer; integers are exact ([Z]).
    - Amounts ([parseInt(value) / Math.pow(10, decimals)]) are exact
      rationals ([Q]) instead of IEEE doubles.
    - A JavaScript object used as a map is an association list with unique
      keys in insertion order ([Object.entries] order).  Keys are ordinary
      own properties; inherited properties are not modelled.
    - Effects (the two in-memory maps, the two snapshot files, the chat
      channel, the console) are threaded through a state-and-exception
      monad over [World].  A poll tick and a command handler run to
      completion without interleaving. *)

From Stdlib Require Import ZArith QArith Qround String Ascii List Bool Lia.
From Stdlib Require Import DecimalString.
From Stdlib Require Import Lqa.
Import ListNotations.

Local Open Scope string_scope.
Local Open Scope Z_scope.

(** ** Strings *)

Module Str.

Definition lower_ascii (c : ascii) : ascii :=
  let n := nat_of_ascii c in
  if (andb (Nat.leb 65 n) (Nat.leb n 90)) then ascii_of_nat (n + 32) else c.

(** [String.prototype.toLowerCase] on ASCII. *)
Fixpoint toLowerCase (s : string) : string :=
  match s with
  | EmptyString => EmptyString
  | String c s' => String (lower_ascii c) (toLowerCase s')
  end.

(** TAB, LF, VT, FF, CR and SPACE. *)
Definition is_space (c : ascii) : bool :=
  let n := nat_of_ascii c in
  orb (andb (Nat.leb 9 n) (Nat.leb n 13)) (Nat.eqb n 32).

Fixpoint trimStart (s : string) : string :=
  match s with
  | EmptyString => EmptyString
  | String c s' => if is_space c then trimStart s' else s
  end.

Fixpoint trimEnd (s : string) : string :=
  match s with
  | EmptyString => EmptyString
  | String c s' =>
      match trimEnd s' with
      | EmptyString => if is_space c then EmptyString else String c EmptyString
      | t => String c t
      end
  end.

(** [String.prototype.trim]. *)
Definition trim (s : string) : string := trimEnd (trimStart s).

Definition is_hex_lower (c : ascii) : bool :=
  let n := nat_of_ascii c in
  orb (andb (Nat.leb 48 n) (Nat.leb n 57)) (andb (Nat.leb 97 n) (Nat.leb n 102)).

Fixpoint all_chars (p : ascii -> bool) (s : string) : bool :=
  match s with
  | EmptyString => true
  | String c s' => andb (p c) (all_chars p s')
  end.

(** [/^0x[a-f0-9]{40}$/i.test(s)]: with the [i] flag a character matches
    when its lower-case form does. *)
Definition isAddressFormat (s : string) : bool :=
  match s with
  | String c0 (String c1 rest) =>
      andb (Ascii.eqb c0 "0"%char)
        (andb (Ascii.eqb (lower_ascii c1) "x"%char)
           (andb (Nat.eqb (String.length rest) 40)
              (all_chars (fun c => is_hex_lower (lower_ascii c)) rest)))
  | _ => false
  end.

(** A JavaScript string is truthy when it is not empty. *)
Definition truthy (s : string) : bool :=
  match s with EmptyString => false | _ => true end.

End Str.

(** ** Numbers *)

(** The result of [parseInt], and the type of [lastBlock]. *)
Inductive jsnum : Type :=
| NaN : jsnum
| Num : Z -> jsnum.

Module JsNum.

Definition eqb (a b : jsnum) : bool :=
  match a, b with
  | NaN, NaN => true
  | Num x, Num y => Z.eqb x y
  | _, _ => false
  end.

(** [a > b]: false as soon as one side is NaN. *)
Definition gtb (a b : jsnum) : bool :=
  match a, b with
  | Num x, Num y => Z.ltb y x
  | _, _ => false
  end.

(** [a <= b] in JavaScript: false as soon as one side is NaN. *)
Definition leb (a b : jsnum) : bool :=
  match a, b with
  | Num x, Num y => Z.leb x y
  | _, _ => false
  end.

(** [x || d] on numbers: 0 and NaN are falsy. *)
Definition or_default (x : jsnum) (d : Z) : Z :=
  match x with
  | NaN => d
  | Num z => if Z.eqb z 0 then d else z
  end.

(** [Math.max] of one or more arguments: NaN if any argument is NaN. *)
Definition max2 (a b : jsnum) : jsnum :=
  match a, b with
  | Num x, Num y => Num (Z.max x y)
  | _, _ => NaN
  end.

Definition Math_max (x : jsnum) (xs : list jsnum) : jsnum :=
  fold_left max2 xs x.

(** The order in which a watermark "does not decrease": it keeps its value
    or moves to a larger integer. *)
Definition le (a b : jsnum) : Prop :=
  a = b \/ exists x y, a = Num x /\ b = Num y /\ x < y.

Definition digit_value (radix : Z) (c : ascii) : option Z :=
  let n := Z.of_nat (nat_of_ascii c) in
  let v :=
    if andb (48 <=? n) (n <=? 57) then Some (n - 48)
    else if andb (97 <=? n) (n <=? 122) then Some (n - 87)
    else if andb (65 <=? n) (n <=? 90) then Some (n - 55)
    else None in
  match v with
  | Some d => if d <? radix then Some d else None
  | None => None
  end.

(** Reads the longest prefix of radix digits; [None] when there is none. *)
Fixpoint digits (radix : Z) (acc : option Z) (s : string) : option Z :=
  match s with
  | EmptyString => acc
  | String c s' =>
      match digit_value radix c with
      | Some d =>
          digits radix
            (Some (match acc with Some a => a * radix + d | None => d end)) s'
      | None => acc
      end
  end.

Definition strip_sign (s : string) : Z * string :=
  match s with
  | String c s' =>
      if Ascii.eqb c "-"%char then (-1, s')
      else if Ascii.eqb c "+"%char then (1, s')
      else (1, s)
  | EmptyString => (1, s)
  end.

Definition strip_hex_prefix (s : string) : Z * string :=
  match s with
  | String c0 (String c1 rest) =>
      if andb (Ascii.eqb c0 "0"%char)
              (orb (Ascii.eqb c1 "x"%char) (Ascii.eqb c1 "X"%char))
      then (16, rest) else (10, s)
  | _ => (10, s)
  end.

(** [parseInt(s)] without a radix argument. *)
Definition parseInt (s : string) : jsnum :=
  let (sign, s1) := strip_sign (Str.trimStart s) in
  let (radix, s2) := strip_hex_prefix s1 in
  match digits radix None s2 with
  | Some v => Num (sign * v)
  | None => NaN
  end.

End JsNum.

Definition parseInt := JsNum.parseInt.

(** The result of a JavaScript division: NaN or a finite value. *)
Inductive jsreal : Type :=
| RNaN : jsreal
| Real : Q -> jsreal.

Module JsReal.

Definition Qltb (a b : Q) : bool := negb (Qle_bool b a).

(** [x < t] with [t] a finite number. *)
Definition ltb (x : jsreal) (t : Q) : bool :=
  match x with
  | RNaN => false
  | Real q => Qltb q t
  end.

(** [x >= t] with [t] a finite number. *)
Definition geb (x : jsreal) (t : Q) : bool :=
  match x with
  | RNaN => false
  | Real q => Qle_bool t q
  end.

(** [x / t] with [t] a finite non-zero number. *)
Definition div (x : jsreal) (t : Q) : jsreal :=
  match x with
  | RNaN => RNaN
  | Real q => Real (q / t)
  end.

(** [parseInt(v) / Math.pow(10, d)]. *)
Definition scale (v : jsnum) (d : Z) : jsreal :=
  match v with
  | NaN => RNaN
  | Num z => Real (inject_Z z / Qpower (10 # 1) d)
  end.

Definition decimal (z : Z) : string :=
  NilZero.string_of_uint (N.to_uint (Z.to_N z)).

Definition two_digits (z : Z) : string :=
  decimal (z / 10) ++ decimal (z mod 10).

End JsReal.

Definition e3 : Q := 1000 # 1.
Definition e6 : Q := 1000000 # 1.
Definition e9 : Q := 1000000000 # 1.
Definition e21 : Q := 1000000000000000000000 # 1.

Section Rendering.

(** [Number.prototype.toString] of a number that is not a small integer (a
    fraction, or a magnitude of 1e21 or more, in exponent notation) is left
    to the host. *)
Variable numberToString : Q -> string.

(** [x.toFixed(2)]: the sign, then the integer [n] nearest to [|x| * 100]
    (the larger one on a tie) written with two digits after the point. *)
Definition toFixed2 (x : jsreal) : string :=
  match x with
  | RNaN => "NaN"
  | Real q =>
      let neg := JsReal.Qltb q 0 in
      let a := if neg then Qopp q else q in
      (if neg then "-" else "") ++
      (if Qle_bool e21 a then numberToString a
       else
         let n := Qfloor (a * (100 # 1) + (1 # 2)) in
         JsReal.decimal (n / 100) ++ "." ++ JsReal.two_digits (n mod 100))
  end.

Definition formatAmount (value : jsreal) : string :=
  if JsReal.geb value e9 then toFixed2 (JsReal.div value e9) ++ "B"
  else if JsReal.geb value e6 then toFixed2 (JsReal.div value e6) ++ "M"
  else if JsReal.geb value e3 then toFixed2 (JsReal.div value e3) ++ "K"
  else toFixed2 value.

End Rendering.

(** ** Objects used as maps *)

Module Obj.

Definition t (V : Type) : Type := list (string * V).

(** [o[k]] *)
Fixpoint get {V} (k : string) (o : t V) : option V :=
  match o with
  | [] => None
  | (k', v) :: o' => if String.eqb k k' then Some v else get k o'
  end.

(** [o[k] = v]: an existing key keeps its place, a new key goes last. *)
Fixpoint set {V} (k : string) (v : V) (o : t V) : t V :=
  match o with
  | [] => [(k, v)]
  | (k', v') :: o' =>
      if String.eqb k k' then (k', v) :: o' else (k', v') :: set k v o'
  end.

(** [delete o[k]] *)
Fixpoint delete {V} (k : string) (o : t V) : t V :=
  match o with
  | [] => []
  | (k', v') :: o' =>
      if String.eqb k k' then delete k o' else (k', v') :: delete k o'
  end.

(** A field update of the object stored under [k], if there is one. *)
Fixpoint adjust {V} (f : V -> V) (k : string) (o : t V) : t V :=
  match o with
  | [] => []
  | (k', v') :: o' =>
      if String.eqb k k' then (k', f v') :: o' else (k', v') :: adjust f k o'
  end.

Definition keys {V} (o : t V) : list string := map fst o.

End Obj.

(** ** Data *)

Record AddressData : Type := mkAddressData {
  lastBlock : jsnum;
  remark : option string
}.

Record BlacklistEntry : Type := mkBlacklistEntry {
  addedAt : string
}.

(** One element of the feed's [result] array; every field is a string. *)
Record TransferRecord : Type := mkTransferRecord {
  blockNumber : string;
  hash : string;
  from : string;
  to : string;
  contractAddress : string;
  tokenName : string;
  tokenSymbol : string;
  tokenDecimal : string;
  value : string;
  timeStamp : string
}.

Record Config : Type := mkConfig {
  chatId : string;
  minTransferAmount : Q
}.

(** A call of [bot.sendMessage] and whether it was delivered. *)
Record Sent : Type := mkSent {
  sent_chat : string;
  sent_text : string;
  delivered : bool
}.

(** The calls of [console.log] and [console.error], by call site. *)
Inductive LogEntry : Type :=
| LogBlacklisted (ca name : string)
| LogSmallIncoming (ca name : string) (amount : jsreal)
| LogSendFailed (error : string)
| LogNewTx (txhash address : string)
| LogSkipInit (txhash : string)
| LogAdded (address : string) (block : jsnum)
| LogRemoved (address : string)
| LogBlacklistAdded (ca : string)
| LogBlacklistRemoved (ca : string)
| LogSync (label : string) (current latest : jsnum)
| LogSyncEmpty (label : string) (current : jsnum)
| LogSyncFailed (label error : string)
| LogSyncDone.

(** The mutable state of the process and of what it talks to.  The files
    and the channel record every write and every send, newest first.
    [channel] scripts the chat service: the outcome of each coming call of
    [bot.sendMessage] ([false]: the call rejects); once the script is used
    up every call succeeds. *)
Record World : Type := mkWorld {
  monitoredAddresses : Obj.t AddressData;
  blacklistedContracts : Obj.t BlacklistEntry;
  isInitializing : bool;
  addressesFile : list (Obj.t AddressData);
  blacklistFile : list (Obj.t BlacklistEntry);
  outbox : list Sent;
  channel : list bool;
  console : list LogEntry
}.

(** What [getTokenTransfers(address, startBlock)] resolves to.  The function
    absorbs every failure of the request into an empty list, so the feed is
    any function to record lists; each pass (a tick, the startup sync, an
    add command) gets its own. *)
Definition Feed : Type := string -> jsnum -> list TransferRecord.

(** ** The effect monad *)

Inductive Outcome (A : Type) : Type :=
| Ok : A -> Outcome A
| Throw : string -> Outcome A.
Arguments Ok {A} _.
Arguments Throw {A} _.

Definition M (A : Type) : Type := World -> Outcome A * World.

Definition ret {A} (a : A) : M A := fun w => (Ok a, w).

Definition bind {A B} (c : M A) (k : A -> M B) : M B :=
  fun w =>
    match c w with
    | (Ok a, w') => k a w'
    | (Throw e, w') => (Throw e, w')
    end.

Declare Scope js_scope.
Delimit Scope js_scope with js.
Notation "x <- c ;; k" := (bind c (fun x => k))
  (at level 61, c at next level, right associativity) : js_scope.
Notation "c ;; k" := (bind c (fun _ => k))
  (at level 61, right associativity) : js_scope.
Local Open Scope js_scope.

Definition gets {A} (f : World -> A) : M A := fun w => (Ok (f w), w).
Definition modify (f : World -> World) : M unit := fun w => (Ok tt, f w).

(** [try { c } catch (error) { h(error) }] *)
Definition try_catch {A} (c : M A) (h : string -> M A) : M A :=
  fun w =>
    match c w with
    | (Ok a, w') => (Ok a, w')
    | (Throw e, w') => h e w'
    end.

(** A promise that is neither awaited nor caught: its rejection does not
    reach the caller. *)
Definition detached (c : M unit) : M unit :=
  fun w => (Ok tt, snd (c w)).

(** [for (const x of xs) { body(x) }] *)
Fixpoint for_of {A} (xs : list A) (body : A -> M unit) : M unit :=
  match xs with
  | [] => ret tt
  | x :: xs' => body x ;; for_of xs' body
  end.

Definition run {A} (c : M A) (w : World) : World := snd (c w).
Definition result {A} (c : M A) (w : World) : Outcome A := fst (c w).

(** ** World updates *)

Definition with_monitored (f : Obj.t AddressData -> Obj.t AddressData)
  (w : World) : World :=
  mkWorld (f (monitoredAddresses w)) (blacklistedContracts w)
    (isInitializing w) (addressesFile w) (blacklistFile w) (outbox w)
    (channel w) (console w).

Definition with_blacklist (f : Obj.t BlacklistEntry -> Obj.t BlacklistEntry)
  (w : World) : World :=
  mkWorld (monitoredAddresses w) (f (blacklistedContracts w))
    (isInitializing w) (addressesFile w) (blacklistFile w) (outbox w)
    (channel w) (console w).

Definition with_initializing (b : bool) (w : World) : World :=
  mkWorld (monitoredAddresses w) (blacklistedContracts w) b
    (addressesFile w) (blacklistFile w) (outbox w) (channel w) (console w).

Definition console_log (e : LogEntry) : M unit :=
  modify (fun w =>
    mkWorld (monitoredAddresses w) (blacklistedContracts w)
      (isInitializing w) (addressesFile w) (blacklistFile w) (outbox w)
      (channel w) (e :: console w)).

(** [fs.writeFileSync(addressesFile, JSON.stringify(monitoredAddresses))] *)
Definition saveAddresses : M unit :=
  modify (fun w =>
    mkWorld (monitoredAddresses w) (blacklistedContracts w)
      (isInitializing w) (monitoredAddresses w :: addressesFile w)
      (blacklistFile w) (outbox w) (channel w) (console w)).

(** [fs.writeFileSync(blacklistFile, JSON.stringify(blacklistedContracts))] *)
Definition saveBlacklist : M unit :=
  modify (fun w =>
    mkWorld (monitoredAddresses w) (blacklistedContracts w)
      (isInitializing w) (addressesFile w)
      (blacklistedContracts w :: blacklistFile w) (outbox w) (channel w)
      (console w)).

(** [bot.sendMessage(chat, text)]: the call is recorded; it rejects when
    the channel says so. *)
Definition bot_sendMessage (chat text : string) : M unit :=
  fun w =>
    let ok := match channel w with b :: _ => b | [] => true end in
    let w' :=
      mkWorld (monitoredAddresses w) (blacklistedContracts w)
        (isInitializing w) (addressesFile w) (blacklistFile w)
        (mkSent chat text ok :: outbox w) (tl (channel w)) (console w) in
    if ok then (Ok tt, w') else (Throw "sendMessage rejected", w').

Definition getTokenTransfers (feed : Feed) (address : string)
  (startBlock : jsnum) : M (list TransferRecord) :=
  ret (feed address startBlock).

(** ** The bot *)

Definition nl : string := String (ascii_of_nat 10) EmptyString.

Module Text.

Definition unnamed : string := "未命名".
Definition incoming : string := "📥 买入".
Definition outgoing : string := "📤 卖出".
Definition bad_address : string := "❌ 地址格式错误".
Definition already_monitored : string := "⚠️ 该地址已在监控中".
Definition not_monitored : string := "❌ 该地址未在监控中".
Definition bad_contract : string := "❌ 合约地址格式错误".
Definition already_blacklisted : string := "⚠️ 该合约已在黑名单中".
Definition not_blacklisted : string := "❌ 该合约不在黑名单中".

End Text.

(** [String(n)] for a block number. *)
Definition jsnum_toString (n : jsnum) : string :=
  match n with
  | NaN => "NaN"
  | Num z => if z <? 0 then "-" ++ JsReal.decimal (- z) else JsReal.decimal z
  end.

(** [txs.map(tx => parseInt(tx.blockNumber))] *)
Definition blocksOf (txs : list TransferRecord) : list jsnum :=
  map (fun tx => parseInt (blockNumber tx)) txs.

(** ** Sample data

    One monitored address, one blacklisted contract and a few transfer
    records, for the concrete runs at the end of the file. *)

Module Sample.

Definition alice : string := "0xaaaaaaaaaaaaaaaaaaaaaaaaaaaaaaaaaaaaaaaa".
Definition bob : string := "0x1111111111111111111111111111111111111111".
Definition spam : string := "0xbbbbbbbbbbbbbbbbbbbbbbbbbbbbbbbbbbbbbbbb".
Definition token : string := "0xcccccccccccccccccccccccccccccccccccccccc".

(** The default minimum, 0.1. *)
Definition config : Config := mkConfig "42" (1 # 10).

(** The host's renderings play no part in these runs. *)
Definition numberToString (q : Q) : string := "?".
Definition toLocaleString (n : jsnum) : string := "?".

Definition entry (block : Z) : AddressData := mkAddressData (Num block) None.

(** [alice] is monitored with the given watermark, [spam] is blacklisted,
    startup is over, and [channel] scripts the chat service. *)
Definition world (block : Z) (channel : list bool) : World :=
  mkWorld [(alice, entry block)]
    [(spam, mkBlacklistEntry "2024-01-01T00:00:00.000Z")]
    false [] [] [] channel [].

(** A transfer of a token with 18 decimals. *)
Definition transfer (block sender receiver contract raw : string)
  : TransferRecord :=
  mkTransferRecord block "0xfeed" sender receiver contract "Token" "TKN" "18"
    raw "1700000000".

(** 5 tokens to [alice] at block 100. *)
Definition r100 : TransferRecord :=
  transfer "100" bob alice token "5000000000000000000".
(** 5 tokens of the blacklisted contract to [alice] at block 101. *)
Definition r101 : TransferRecord :=
  transfer "101" bob alice "0xBBBBBBBBBBBBBBBBBBBBbbbbbbbbbbbbbbbbbbbb"
    "5000000000000000000".
(** 0.05 tokens to [alice] at block 105. *)
Definition r105 : TransferRecord :=
  transfer "105" bob "0xAAAAAAAAAAAAAAAAAAAAaaaaaaaaaaaaaaaaaaaa" token
    "50000000000000000".
(** 1500 tokens from [alice] at block 106. *)
Definition r106 : TransferRecord :=
  transfer "106" alice bob token "1500000000000000000000".
(** A record at block 5. *)
Definition r5 : TransferRecord :=
  transfer "5" bob alice token "5000000000000000000".

(** A feed that answers every request with [txs]. *)
Definition always (txs : list TransferRecord) : Feed := fun _ _ => txs.

End Sample.

(** More sample data: worlds whose files hold the maps, a process that is
    still starting, an address that is not monitored and a key with blanks
    around it. *)

Module Fixture.

Definition listed : Obj.t BlacklistEntry :=
  [(Sample.spam, mkBlacklistEntry "2024-01-01T00:00:00.000Z")].

(** [Sample.world] after both files were written. *)
Definition persisted (block : Z) (channel : list bool) : World :=
  mkWorld [(Sample.alice, Sample.entry block)] listed false
    [[(Sample.alice, Sample.entry block)]] [listed] [] channel [].

(** [Sample.world] while [isInitializing] is still set. *)
Definition starting (block : Z) (channel : list bool) : World :=
  mkWorld [(Sample.alice, Sample.entry block)] listed true [] [] []
    channel [].

(** Nothing monitored, nothing blacklisted. *)
Definition blank : World := mkWorld [] [] false [] [] [] [] [].

Definition carol : string := "0xdddddddddddddddddddddddddddddddddddddddd".
Definition carolTyped : string :=
  "  0xDDDDDDDDDDDDDDDDDDDDdddddddddddddddddddd ".
Definition tokenTyped : string :=
  "0xCCCCCCCCCCCCCCCCCCCCcccccccccccccccccccc".

(** A record whose block number is not a number. *)
Definition unparsed : TransferRecord :=
  Sample.transfer "pending" Sample.bob carol Sample.token "1000000000000000000".


End Fixture.

Section Bot.

Variable numberToString : Q -> string.
(** [new Date(ms).toLocaleString('zh-CN')], from [parseInt(tx.timeStamp)]. *)
Variable toLocaleString : jsnum -> string.
Variable config : Config.

(** [x.remark || '未命名'] *)
Definition remark_or (d : option AddressData) (default : string) : string :=
  match d with
  | Some (mkAddressData _ (Some r)) => if Str.truthy r then r else default
  | _ => default
  end.

Definition isIncoming (tx : TransferRecord) (monitorAddress : string) : bool :=
  String.eqb (Str.toLowerCase (to tx)) (Str.toLowerCase monitorAddress).

(** [parseInt(tx.tokenDecimal) || 18] *)
Definition decimalsOf (tx : TransferRecord) : Z :=
  JsNum.or_default (parseInt (tokenDecimal tx)) 18.

(** [parseInt(tx.value) / Math.pow(10, decimals)] *)
Definition amountOf (tx : TransferRecord) : jsreal :=
  JsReal.scale (parseInt (value tx)) (decimalsOf tx).

Definition render (remark direction : string) (tx : TransferRecord)
  (monitorAddress : string) : string :=
  Str.trim
    (nl ++ "【" ++ remark ++ "】 " ++ direction ++ nl ++
     tokenName tx ++ " (" ++ tokenSymbol tx ++ ")" ++ nl ++
     "CA: " ++ contractAddress tx ++ nl ++
     "数量: " ++ formatAmount numberToString (amountOf tx) ++ nl ++
     "地址: " ++ monitorAddress ++ nl ++
     "时间: " ++ toLocaleString (parseInt (timeStamp tx)) ++ nl ++ "  ").

(** The alert text, or [None] for JavaScript's [null]. *)
Definition formatTransaction (tx : TransferRecord) (monitorAddress : string)
  : M (option string) :=
  addressData <- gets (fun w =>
    Obj.get (Str.toLowerCase monitorAddress) (monitoredAddresses w)) ;;
  let remark := remark_or addressData Text.unnamed in
  let direction :=
    if isIncoming tx monitorAddress then Text.incoming else Text.outgoing in
  let amount := amountOf tx in
  listed <- gets (fun w =>
    Obj.get (Str.toLowerCase (contractAddress tx)) (blacklistedContracts w)) ;;
  match listed with
  | Some _ =>
      console_log (LogBlacklisted (contractAddress tx) (tokenName tx)) ;;
      ret None
  | None =>
      if andb (isIncoming tx monitorAddress)
              (JsReal.ltb amount (minTransferAmount config))
      then
        console_log
          (LogSmallIncoming (contractAddress tx) (tokenName tx) amount) ;;
        ret None
      else ret (Some (render remark direction tx monitorAddress))
  end.


Definition sendNotification (message : option string) : M unit :=
  try_catch
    (match message with
     | Some m =>
         if Str.truthy m then bot_sendMessage (chatId config) m else ret tt
     | None => ret tt
     end)
    (fun error => console_log (LogSendFailed error)).

(** [data.lastBlock], where [data] is the object that the loop took from
    [Object.entries(monitoredAddresses)] under [address].  While a pass runs
    that object stays the one stored in the map under that key. *)
Definition lastBlockOf (address : string) (data : AddressData) : M jsnum :=
  gets (fun w =>
    match Obj.get address (monitoredAddresses w) with
    | Some d => lastBlock d
    | None => lastBlock data
    end).

(** [data.lastBlock = blockNum] *)
Definition setLastBlock (address : string) (blockNum : jsnum) : M unit :=
  modify (with_monitored
    (Obj.adjust (fun d => mkAddressData blockNum (remark d)) address)).

(** The body of the loop over the records of one response. *)
Definition checkTransaction (address : string) (data : AddressData)
  (tx : TransferRecord) : M unit :=
  let blockNum := parseInt (blockNumber tx) in
  current <- lastBlockOf address data ;;
  if JsNum.gtb blockNum current then
    console_log (LogNewTx (hash tx) address) ;;
    initializing <- gets isInitializing ;;
    (if negb initializing then
       message <- formatTransaction tx address ;;
       sendNotification message
     else console_log (LogSkipInit (hash tx))) ;;
    setLastBlock address blockNum
  else ret tt.

(** The body of the loop over the monitored addresses. *)
Definition checkAddress (feed : Feed) (entry : string * AddressData) : M unit :=
  let (address, data) := entry in
  startBlock <- lastBlockOf address data ;;
  transactions <- getTokenTransfers feed address startBlock ;;
  if (0 <? length transactions)%nat then
    for_of transactions (checkTransaction address data) ;;
    saveAddresses
  else ret tt.

Definition checkTransactions (feed : Feed) : M unit :=
  entries <- gets monitoredAddresses ;;
  for_of entries (checkAddress feed).

(** The ticks that [setInterval] fires, one feed per tick.  A tick that
    rejected would not stop the timer. *)
Fixpoint ticks (feeds : list Feed) (w : World) : World :=
  match feeds with
  | [] => w
  | feed :: feeds' => ticks feeds' (run (checkTransactions feed) w)
  end.

(** *** Startup *)

(** [data.remark || address] *)
Definition labelOf (address : string) (data : AddressData) : string :=
  remark_or (Some data) address.

(** The body of the startup loop.  [Math.max] is called in the branch
    [txs.length > 0] only. *)
Definition syncAddress (feed : Feed) (entry : string * AddressData) : M unit :=
  let (address, data) := entry in
  try_catch
    (txs <- getTokenTransfers feed address (Num 0) ;;
     current <- lastBlockOf address data ;;
     match blocksOf txs with
     | b :: bs =>
         let latestBlock := JsNum.Math_max b bs in
         console_log (LogSync (labelOf address data) current latestBlock) ;;
         setLastBlock address latestBlock
     | [] => console_log (LogSyncEmpty (labelOf address data) current)
     end)
    (fun error => console_log (LogSyncFailed (labelOf address data) error)).

Definition startedText (count : nat) : string :=
  "🤖 监控 Bot 已启动" ++ nl ++
  "当前监控 " ++ JsReal.decimal (Z.of_nat count) ++ " 个地址" ++ nl ++
  "最小转入额度: " ++ numberToString (minTransferAmount config) ++ nl ++ nl ++
  "发送 /help 查看命令".

(** [init], from the state that [loadAddresses] left, up to the arming of
    the timer. *)
Definition init (feed : Feed) : M unit :=
  entries <- gets monitoredAddresses ;;
  for_of entries (syncAddress feed) ;;
  saveAddresses ;;
  console_log LogSyncDone ;;
  modify (with_initializing false) ;;
  count <- gets (fun w => length (Obj.keys (monitoredAddresses w))) ;;
  sendNotification (Some (startedText count)).

(** *** Commands

    A handler gets [msg.chat.id.toString()] and the text that its pattern
    captured.  Its replies are not awaited. *)

Definition reply (chat text : string) : M unit :=
  detached (bot_sendMessage chat text).

Definition onAdd (feed : Feed) (chat arg : string) : M unit :=
  if negb (String.eqb chat (chatId config)) then ret tt else
  let address := Str.toLowerCase (Str.trim arg) in
  if negb (Str.isAddressFormat address) then reply chat Text.bad_address else
  present <- gets (fun w => Obj.get address (monitoredAddresses w)) ;;
  match present with
  | Some _ => reply chat Text.already_monitored
  | None =>
      txs <- getTokenTransfers feed address (Num 0) ;;
      let lastBlock :=
        match blocksOf txs with
        | b :: bs => JsNum.Math_max b bs
        | [] => Num 0
        end in
      modify (with_monitored (Obj.set address (mkAddressData lastBlock None))) ;;
      saveAddresses ;;
      reply chat
        ("✅ 已添加监控地址:" ++ nl ++ address ++ nl ++
         "从区块 " ++ jsnum_toString lastBlock ++ " 开始监控") ;;
      console_log (LogAdded address lastBlock)
  end.

Definition onRemove (chat arg : string) : M unit :=
  if negb (String.eqb chat (chatId config)) then ret tt else
  let address := Str.toLowerCase (Str.trim arg) in
  present <- gets (fun w => Obj.get address (monitoredAddresses w)) ;;
  match present with
  | None => reply chat Text.not_monitored
  | Some _ =>
      modify (with_monitored (Obj.delete address)) ;;
      saveAddresses ;;
      reply chat ("✅ 已移除监控地址:" ++ nl ++ address) ;;
      console_log (LogRemoved address)
  end.

Definition onRemark (chat arg1 arg2 : string) : M unit :=
  if negb (String.eqb chat (chatId config)) then ret tt else
  let address := Str.toLowerCase (Str.trim arg1) in
  let remark := Str.trim arg2 in
  present <- gets (fun w => Obj.get address (monitoredAddresses w)) ;;
  match present with
  | None => reply chat Text.not_monitored
  | Some _ =>
      modify (with_monitored
        (Obj.adjust (fun d => mkAddressData (lastBlock d) (Some remark))
           address)) ;;
      saveAddresses ;;
      reply chat
        ("✅ 已设置备注:" ++ nl ++ address ++ nl ++ "备注: " ++ remark)
  end.

(** [now] is [new Date().toISOString()]. *)
Definition onBlacklist (now chat arg : string) : M unit :=
  if negb (String.eqb chat (chatId config)) then ret tt else
  let contractAddress := Str.toLowerCase (Str.trim arg) in
  if negb (Str.isAddressFormat contractAddress)
  then reply chat Text.bad_contract else
  present <- gets (fun w => Obj.get contractAddress (blacklistedContracts w)) ;;
  match present with
  | Some _ => reply chat Text.already_blacklisted
  | None =>
      modify (with_blacklist
        (Obj.set contractAddress (mkBlacklistEntry now))) ;;
      saveBlacklist ;;
      reply chat ("✅ 已添加到黑名单:" ++ nl ++ contractAddress) ;;
      console_log (LogBlacklistAdded contractAddress)
  end.

Definition onUnblacklist (chat arg : string) : M unit :=
  if negb (String.eqb chat (chatId config)) then ret tt else
  let contractAddress := Str.toLowerCase (Str.trim arg) in
  present <- gets (fun w => Obj.get contractAddress (blacklistedContracts w)) ;;
  match present with
  | None => reply chat Text.not_blacklisted
  | Some _ =>
      modify (with_blacklist (Obj.delete contractAddress)) ;;
      saveBlacklist ;;
      reply chat ("✅ 已从黑名单移除:" ++ nl ++ contractAddress) ;;
      console_log (LogBlacklistRemoved contractAddress)
  end.

(** [xs.map((x, i) => f(x, i))], the index counted from [i]. *)
Fixpoint mapi_from {A B} (i : nat) (f : A -> nat -> B) (xs : list A) : list B :=
  match xs with
  | [] => []
  | x :: xs' => f x i :: mapi_from (S i) f xs'
  end.

Definition list_empty : string := "📋 当前没有监控任何地址".
Definition blacklist_empty : string := "📋 黑名单为空".

(** One item of the [/list] reply; [monitoredAddresses[addr]] is read by
    key. *)
Definition listItem (o : Obj.t AddressData) (addr : string) (i : nat)
  : string :=
  JsReal.decimal (Z.of_nat (i + 1)) ++ ". " ++
  remark_or (Obj.get addr o) Text.unnamed ++ nl ++ "   " ++ addr.

Definition onList (chat : string) : M unit :=
  if negb (String.eqb chat (chatId config)) then ret tt else
  o <- gets monitoredAddresses ;;
  let addresses := Obj.keys o in
  match addresses with
  | [] => reply chat list_empty
  | _ :: _ =>
      let list := String.concat (nl ++ nl) (mapi_from 0 (listItem o) addresses) in
      reply chat
        ("📋 当前监控地址 (" ++ JsReal.decimal (Z.of_nat (length addresses)) ++
         "):" ++ nl ++ nl ++ list)
  end.

Definition helpText : string :=
  Str.trim
    (nl ++ "🤖 BASE 链监控 Bot 命令:" ++ nl ++ nl ++
     "/add <地址> - 添加监控地址" ++ nl ++
     "/remove <地址> - 移除监控地址" ++ nl ++
     "/remark <地址> <备注> - 设置地址备注" ++ nl ++
     "/list - 查看所有监控地址" ++ nl ++
     "/blacklist <CA地址> - 添加黑名单合约" ++ nl ++
     "/unblacklist <CA地址> - 移除黑名单合约" ++ nl ++
     "/blacklist_list - 查看黑名单列表" ++ nl ++
     "/help - 显示帮助信息" ++ nl ++ nl ++
     "示例:" ++ nl ++
     "/add 0x1234...5678" ++ nl ++
     "/remark 0x1234...5678 我的钱包" ++ nl ++
     "/remove 0x1234...5678" ++ nl ++
     "/blacklist 0xabcd...ef01" ++ nl ++ "  ").

Definition onHelp (chat : string) : M unit :=
  if negb (String.eqb chat (chatId config)) then ret tt else
  reply chat helpText.

Definition onBlacklistList (chat : string) : M unit :=
  if negb (String.eqb chat (chatId config)) then ret tt else
  o <- gets blacklistedContracts ;;
  let contracts := Obj.keys o in
  match contracts with
  | [] => reply chat blacklist_empty
  | _ :: _ =>
      let list :=
        String.concat nl
          (mapi_from 0
             (fun addr i => JsReal.decimal (Z.of_nat (i + 1)) ++ ". " ++ addr)
             contracts) in
      reply chat
        ("📋 黑名单合约 (" ++ JsReal.decimal (Z.of_nat (length contracts)) ++
         "):" ++ nl ++ nl ++ list)
  end.

(** *** Loading

    [loadAddresses].  [addresses] and [blacklist] are what
    [JSON.parse(fs.readFileSync(...))] returned for each file, [None] when
    [fs.existsSync] is false; [MONITOR_ADDRESS] is the environment variable,
    [None] when it is not set. *)
Definition loadAddresses (addresses : option (Obj.t AddressData))
  (blacklist : option (Obj.t BlacklistEntry))
  (MONITOR_ADDRESS : option string) : M unit :=
  (match addresses with
   | Some parsed => modify (with_monitored (fun _ => parsed))
   | None =>
       match MONITOR_ADDRESS with
       | Some initialAddress =>
           if Str.truthy initialAddress then
             modify (with_monitored
               (Obj.set (Str.toLowerCase initialAddress)
                  (mkAddressData (Num 0) None))) ;;
             saveAddresses
           else ret tt
       | None => ret tt
       end
   end) ;;
  match blacklist with
  | Some parsed => modify (with_blacklist (fun _ => parsed))
  | None => ret tt
  end.

(** The process as it starts: both maps empty, [isInitializing] set. *)
Definition boot (addressesFile : list (Obj.t AddressData))
  (blacklistFile : list (Obj.t BlacklistEntry)) (channel : list bool) : World :=
  mkWorld [] [] true addressesFile blacklistFile [] channel [].

(** ** Vocabulary of the properties *)

(** A map of watermarks moves forward: every key stays, with a watermark
    that did not decrease. *)
Definition forward (o o' : Obj.t AddressData) : Prop :=
  forall a d, Obj.get a o = Some d ->
    exists d', Obj.get a o' = Some d' /\ JsNum.le (lastBlock d) (lastBlock d').

(** Everything but the chat channel and the console is the same. *)
Definition same_store (w w' : World) : Prop :=
  monitoredAddresses w' = monitoredAddresses w /\
  blacklistedContracts w' = blacklistedContracts w /\
  isInitializing w' = isInitializing w /\
  addressesFile w' = addressesFile w /\
  blacklistFile w' = blacklistFile w.

(** The value that [lastBlockOf address data] reads in [w]. *)
Definition currentBlock (address : string) (data : AddressData) (w : World)
  : jsnum :=
  match Obj.get address (monitoredAddresses w) with
  | Some d => lastBlock d
  | None => lastBlock data
  end.

(** The entry after [data.lastBlock = blockNum]. *)
Definition advance (blockNum : jsnum) (d : AddressData) : AddressData :=
  mkAddressData blockNum (remark d).

(** What a tick may change: watermarks move forward, a snapshot may be
    written, the channel and the console are used; the blacklist, its file
    and the startup flag stay. *)
Definition tick_step (w w' : World) : Prop :=
  forward (monitoredAddresses w) (monitoredAddresses w') /\
  blacklistedContracts w' = blacklistedContracts w /\
  isInitializing w' = isInitializing w /\
  blacklistFile w' = blacklistFile w.

(** The world after one more line on the console. *)
Definition logged (e : LogEntry) (w : World) : World := run (console_log e) w.

(** The two suppression rules of [formatTransaction], in its order. *)
Definition suppressed (tx : TransferRecord) (address : string) (w : World)
  : bool :=
  match Obj.get (Str.toLowerCase (contractAddress tx)) (blacklistedContracts w)
  with
  | Some _ => true
  | None => andb (isIncoming tx address)
              (JsReal.ltb (amountOf tx) (minTransferAmount config))
  end.

(** The records of one response leave the snapshot file alone. *)
Definition record_step (w w' : World) : Prop :=
  tick_step w w' /\ addressesFile w' = addressesFile w.

(** What the startup loop does to the entry of [address]. *)
Definition synced (feed : Feed) (address : string) (d : AddressData)
  : AddressData :=
  match blocksOf (feed address (Num 0)) with
  | [] => d
  | b :: bs => advance (JsNum.Math_max b bs) d
  end.

(** The handler answered with [text], once. *)
Definition replied (chat text : string) (w w' : World) : Prop :=
  exists ok, outbox w' = mkSent chat text ok :: outbox w.

(** Unfolds the effects of a command handler. *)
Ltac run_handler :=
  unfold bind, gets, modify, ret, reply, detached, bot_sendMessage,
    console_log, saveAddresses, saveBlacklist, getTokenTransfers,
    with_monitored, with_blacklist, run;
  cbn.

(** The keys of a watch-list with their labels, in order: all that a tick
    must leave alone. *)
Definition labels (o : Obj.t AddressData) : list (string * option string) :=
  map (fun e => (fst e, remark (snd e))) o.

(** The file holds the map as it is in memory. *)
Definition addresses_in_sync (w : World) : Prop :=
  hd_error (addressesFile w) = Some (monitoredAddresses w).

Definition blacklist_in_sync (w : World) : Prop :=
  hd_error (blacklistFile w) = Some (blacklistedContracts w).

(** A key as the commands make them: of the address shape, in lower
    case. *)
Definition canonical (k : string) : Prop :=
  Str.isAddressFormat k = true /\ Str.toLowerCase k = k.

(** A map whose keys are distinct and canonical. *)
Definition wellformed {V} (o : Obj.t V) : Prop :=
  NoDup (Obj.keys o) /\ Forall canonical (Obj.keys o).

(** The block [x] is not above the watermark [y]. *)
Definition settled_at (x y : jsnum) : Prop := JsNum.gtb x y = false.


(** Every message in [new] went to the configured chat. *)
Definition to_operator (new : list Sent) : Prop :=
  Forall (fun s => sent_chat s = chatId config) new.

(** Closes the goals about the world that a successful handler leaves. *)
Ltac handler_done w :=
  cbv zeta; run_handler;
  destruct (channel w) as [|[|] ?]; cbn;
  repeat split; try (eexists; eexists; reflexivity).

(** Splits the run [E] of a handler into its branches and computes each
    one. *)
Ltac handler_cases E w :=
  repeat match type of E with
    | context [if negb ?b then _ else _] => destruct b; cbn [negb] in E
    end;
  try (unfold bind at 1, gets at 1 in E);
  repeat match type of E with
    | context [match Obj.get ?k ?o with _ => _ end] => destruct (Obj.get k o)
    end;
  unfold bind, gets, modify, ret, reply, detached, bot_sendMessage,
    console_log, saveAddresses, saveBlacklist, getTokenTransfers,
    with_monitored, with_blacklist in E;
  cbn in E;
  try (destruct (channel w) as [|[|] ?]; cbn in E);
  injection E as <- <-; cbn.

(** As [handler_cases], keeping the equation of each test. *)
Ltac handler_branches E w :=
  repeat match type of E with
    | context [if negb ?b then _ else _] => destruct b eqn:?; cbn [negb] in E
    end;
  try (unfold bind at 1, gets at 1 in E);
  repeat match type of E with
    | context [match Obj.get ?k ?o with _ => _ end] =>
        destruct (Obj.get k o) eqn:?
    end;
  unfold bind, gets, modify, ret, reply, detached, bot_sendMessage,
    console_log, saveAddresses, saveBlacklist, getTokenTransfers,
    with_monitored, with_blacklist in E;
  cbn in E;
  try (destruct (channel w) as [|[|] ?]; cbn in E);
  injection E as <- <-; cbn.

(** The highest of [L] and the block numbers in [bs] that are numbers. *)
Definition highest (L : Z) (bs : list jsnum) : Z :=
  fold_left (fun m b => match b with Num z => Z.max m z | NaN => m end) bs L.

(** ** Properties *)

(** *** Objects *)

Lemma get_adjust {V} (f : V -> V) (k a : string) (o : Obj.t V) :
  Obj.get a (Obj.adjust f k o) =
  if String.eqb k a then option_map f (Obj.get a o) else Obj.get a o.
Proof.
  induction o as [|[k' v'] o IH]; simpl.
  - destruct (String.eqb k a); reflexivity.
  - destruct (String.eqb k k') eqn:Hk; simpl.
    + apply String.eqb_eq in Hk; subst k'.
      rewrite (String.eqb_sym a k).
      destruct (String.eqb k a); reflexivity.
    + rewrite IH.
      destruct (String.eqb a k') eqn:Ha; [|reflexivity].
      apply String.eqb_eq in Ha; subst k'.
      rewrite Hk; reflexivity.
Qed.

Lemma get_set_same {V} (k : string) (v : V) (o : Obj.t V) :
  Obj.get k (Obj.set k v o) = Some v.
Proof.
  induction o as [|[k' v'] o IH]; simpl.
  - rewrite String.eqb_refl; reflexivity.
  - destruct (String.eqb k k') eqn:Hk; simpl; rewrite Hk; auto.
Qed.

(** *** The watermark order *)

Lemma watermark_le_refl (a : jsnum) : JsNum.le a a.
Proof. left; reflexivity. Qed.

Lemma watermark_le_trans (a b c : jsnum) : JsNum.le a b -> JsNum.le b c -> JsNum.le a c.
Proof.
  intros [->|(x & y & -> & -> & Hxy)] [<-|(x' & z & E & -> & Hyz)].
  - left; reflexivity.
  - right; eauto.
  - right; eauto.
  - injection E as <-. right; exists x, z; repeat split; lia.
Qed.

Lemma gtb_le (b c : jsnum) : JsNum.gtb b c = true -> JsNum.le c b.
Proof.
  destruct b as [|x], c as [|y]; simpl; try discriminate.
  intros H; apply Z.ltb_lt in H. right; eauto.
Qed.

Lemma forward_refl o : forward o o.
Proof. intros a d H; exists d; split; [assumption | apply watermark_le_refl]. Qed.

Lemma forward_trans o1 o2 o3 : forward o1 o2 -> forward o2 o3 -> forward o1 o3.
Proof.
  intros H12 H23 a d H.
  destruct (H12 a d H) as (d2 & G2 & L2).
  destruct (H23 a d2 G2) as (d3 & G3 & L3).
  exists d3; split; [assumption | eapply watermark_le_trans; eassumption].
Qed.

(** *** Frames of the effects *)

Lemma same_store_refl w : same_store w w.
Proof. repeat split. Qed.

Lemma formatTransaction_frame tx address w :
  exists message w',
    formatTransaction tx address w = (Ok message, w') /\
    same_store w w' /\ outbox w' = outbox w /\ channel w' = channel w.
Proof.
  unfold formatTransaction, bind, gets, console_log, modify, ret; simpl.
  destruct (Obj.get _ (blacklistedContracts w)).
  - eexists _, _; split; [reflexivity|]. repeat split.
  - destruct (andb _ _); eexists _, _; (split; [reflexivity|]); repeat split.
Qed.

Lemma sendNotification_frame message w :
  exists w',
    sendNotification message w = (Ok tt, w') /\ same_store w w' /\
    (length (outbox w') <= S (length (outbox w)))%nat.
Proof.
  unfold sendNotification, try_catch, bot_sendMessage, console_log, modify, ret.
  destruct message as [m|]; [destruct (Str.truthy m)|]; simpl.
  - destruct (channel w) as [|[|] rest]; simpl;
      eexists; (split; [reflexivity|]); repeat split; simpl; lia.
  - eexists; split; [reflexivity|]; repeat split; lia.
  - eexists; split; [reflexivity|]; repeat split; lia.
Qed.

(** *** One record *)

(** An old record changes nothing; a new one moves the watermark of its
    address to its block and touches neither the blacklist nor the files. *)
Lemma checkTransaction_cases address data tx w :
  let blockNum := parseInt (blockNumber tx) in
  exists w',
    checkTransaction address data tx w = (Ok tt, w') /\
    if JsNum.gtb blockNum (currentBlock address data w) then
      monitoredAddresses w' =
        Obj.adjust (advance blockNum) address (monitoredAddresses w) /\
      blacklistedContracts w' = blacklistedContracts w /\
      isInitializing w' = isInitializing w /\
      addressesFile w' = addressesFile w /\
      blacklistFile w' = blacklistFile w /\
      (length (outbox w') <= S (length (outbox w)))%nat
    else w' = w.
Proof.
  intros blockNum.
  unfold checkTransaction, lastBlockOf, bind at 1, gets at 1.
  fold blockNum. fold (currentBlock address data w).
  destruct (JsNum.gtb blockNum (currentBlock address data w)).
  2:{ exists w; split; reflexivity. }
  unfold bind at 1, console_log at 1, modify at 1.
  unfold bind at 1, gets at 1.
  simpl (isInitializing (mkWorld _ _ _ _ _ _ _ _)).
  destruct (isInitializing w) eqn:Hinit; cbn [negb].
  - unfold bind, console_log, setLastBlock, modify, with_monitored; simpl.
    eexists; split; [reflexivity|]. repeat split; simpl; lia.
  - unfold bind at 1. unfold bind at 1.
    match goal with
    | |- context [formatTransaction tx address ?w0] =>
        destruct (formatTransaction_frame tx address w0)
          as (message & w1 & -> & (M1 & B1 & I1 & A1 & F1) & O1 & C1)
    end.
    destruct (sendNotification_frame message w1)
      as (w2 & -> & (M2 & B2 & I2 & A2 & F2) & O2).
    unfold setLastBlock, modify, with_monitored; simpl.
    eexists; split; [reflexivity|]. simpl in *.
    rewrite M2, M1, B2, B1, I2, I1, A2, A1, F2, F1.
    repeat split; try assumption. rewrite O1 in O2. exact O2.
Qed.

(** *** Loops *)

(** When the body always completes and relates the worlds before and after
    it by a preorder [R], so does the loop. *)
Lemma for_of_preserves {A} (R : World -> World -> Prop) (body : A -> M unit)
  (xs : list A) :
  (forall w, R w w) ->
  (forall w1 w2 w3, R w1 w2 -> R w2 w3 -> R w1 w3) ->
  (forall x w, In x xs -> exists w', body x w = (Ok tt, w') /\ R w w') ->
  forall w, exists w', for_of xs body w = (Ok tt, w') /\ R w w'.
Proof.
  intros Hrefl Htrans.
  induction xs as [|x xs IH]; intros Hbody w; simpl.
  - exists w; split; [reflexivity | apply Hrefl].
  - unfold bind.
    destruct (Hbody x w (or_introl eq_refl)) as (w1 & -> & R1).
    destruct (IH (fun y w0 Hy => Hbody y w0 (or_intror Hy)) w1)
      as (w2 & -> & R2).
    exists w2; split; [reflexivity | eapply Htrans; eassumption].
Qed.

Lemma tick_step_refl w : tick_step w w.
Proof. repeat split. apply forward_refl. Qed.

Lemma tick_step_trans w1 w2 w3 :
  tick_step w1 w2 -> tick_step w2 w3 -> tick_step w1 w3.
Proof.
  intros (F1 & B1 & I1 & L1) (F2 & B2 & I2 & L2).
  repeat split; try congruence. eapply forward_trans; eassumption.
Qed.

Lemma adjust_forward address data blockNum w :
  JsNum.gtb blockNum (currentBlock address data w) = true ->
  forward (monitoredAddresses w)
    (Obj.adjust (advance blockNum) address (monitoredAddresses w)).
Proof.
  intros Hgt a d Ha. rewrite get_adjust, Ha.
  destruct (String.eqb address a) eqn:E; simpl.
  - apply String.eqb_eq in E; subst a.
    unfold currentBlock in Hgt; rewrite Ha in Hgt.
    eexists; split; [reflexivity|]. simpl. apply gtb_le; assumption.
  - exists d; split; [reflexivity | apply watermark_le_refl].
Qed.

Lemma checkTransaction_step address data tx w :
  exists w', checkTransaction address data tx w = (Ok tt, w') /\ tick_step w w'.
Proof.
  destruct (checkTransaction_cases address data tx w) as (w' & E & H).
  exists w'; split; [assumption|].
  destruct (JsNum.gtb _ _) eqn:Hgt.
  - destruct H as (Hm & Hb & Hi & _ & Hf & _).
    repeat split; try assumption.
    rewrite Hm. eapply adjust_forward; eassumption.
  - subst w'; apply tick_step_refl.
Qed.

Lemma saveAddresses_step w :
  exists w', saveAddresses w = (Ok tt, w') /\ tick_step w w' /\
    monitoredAddresses w' = monitoredAddresses w /\
    addressesFile w' = monitoredAddresses w :: addressesFile w /\
    outbox w' = outbox w.
Proof.
  eexists; split; [reflexivity|]. simpl.
  repeat split. apply forward_refl.
Qed.

Lemma checkAddress_step feed entry w :
  exists w', checkAddress feed entry w = (Ok tt, w') /\ tick_step w w'.
Proof.
  destruct entry as [address data].
  unfold checkAddress, lastBlockOf, getTokenTransfers, bind at 1, gets.
  unfold bind at 1, ret at 1.
  destruct (0 <? length _)%nat.
  - unfold bind.
    match goal with
    | |- context [for_of ?xs ?body ?w0] =>
        destruct (for_of_preserves tick_step body xs tick_step_refl
                    tick_step_trans
                    (fun x w1 _ => checkTransaction_step address data x w1) w0)
          as (w1 & -> & S1)
    end.
    destruct (saveAddresses_step w1) as (w2 & -> & S2 & _).
    exists w2; split; [reflexivity | eapply tick_step_trans; eassumption].
  - exists w; split; [reflexivity | apply tick_step_refl].
Qed.

Lemma checkTransactions_step feed w :
  exists w', checkTransactions feed w = (Ok tt, w') /\ tick_step w w'.
Proof.
  unfold checkTransactions, bind at 1, gets.
  apply for_of_preserves.
  - apply tick_step_refl.
  - apply tick_step_trans.
  - intros entry w0 _. apply checkAddress_step.
Qed.

Lemma ticks_step feeds : forall w, tick_step w (ticks feeds w).
Proof.
  induction feeds as [|feed feeds IH]; intros w; simpl.
  - apply tick_step_refl.
  - destruct (checkTransactions_step feed w) as (w' & E & S1).
    unfold run; rewrite E; simpl.
    eapply tick_step_trans; [exact S1 | apply IH].
Qed.


(** *** Records at or below the watermark *)

Lemma leb_not_gtb (b c : jsnum) : JsNum.leb b c = true -> JsNum.gtb b c = false.
Proof.
  destruct b as [|x], c as [|y]; simpl; try discriminate.
  intros H; apply Z.leb_le in H. apply Z.ltb_ge; assumption.
Qed.

Lemma old_records_noop address data (B : jsnum) (txs : list TransferRecord) w :
  currentBlock address data w = B ->
  (forall tx, In tx txs -> JsNum.gtb (parseInt (blockNumber tx)) B = false) ->
  for_of txs (checkTransaction address data) w = (Ok tt, w).
Proof.
  intros Hcur. induction txs as [|tx txs IH]; intros Hold; simpl.
  - reflexivity.
  - unfold bind.
    destruct (checkTransaction_cases address data tx w) as (w' & -> & H).
    rewrite Hcur, (Hold tx (or_introl eq_refl)) in H. subst w'.
    apply IH. intros tx' Hin. apply Hold. right; assumption.
Qed.

Lemma checkAddress_eq feed address data w :
  checkAddress feed (address, data) w =
  match feed address (currentBlock address data w) with
  | [] => (Ok tt, w)
  | tx :: txs =>
      (for_of (tx :: txs) (checkTransaction address data) ;; saveAddresses) w
  end.
Proof.
  unfold checkAddress, lastBlockOf, getTokenTransfers, bind at 1, gets.
  fold (currentBlock address data w). unfold bind at 1, ret at 1.
  destruct (feed address _); reflexivity.
Qed.

Lemma checkAddress_quiet feed address data w :
  (forall tx, In tx (feed address (currentBlock address data w)) ->
     JsNum.gtb (parseInt (blockNumber tx)) (currentBlock address data w)
       = false) ->
  exists w',
    checkAddress feed (address, data) w = (Ok tt, w') /\
    monitoredAddresses w' = monitoredAddresses w /\ outbox w' = outbox w.
Proof.
  intros Hold. rewrite checkAddress_eq.
  destruct (feed address (currentBlock address data w)) as [|tx txs].
  - exists w; repeat split.
  - unfold bind.
    rewrite (old_records_noop address data _ _ w eq_refl Hold).
    eexists; split; [reflexivity|]. split; reflexivity.
Qed.

Lemma in_get {V} (a : string) (v : V) (o : Obj.t V) :
  In (a, v) o -> exists v', Obj.get a o = Some v'.
Proof.
  induction o as [|[k v0] o IH]; simpl; [tauto|].
  intros [H|H]; destruct (String.eqb a k) eqn:E; eauto.
  injection H as -> ->. rewrite String.eqb_refl in E. discriminate.
Qed.

(** A tick in which no address gets a record above its watermark sends
    nothing and moves no watermark. *)
Lemma quiet_tick feed w :
  (forall a d, Obj.get a (monitoredAddresses w) = Some d ->
     forall tx, In tx (feed a (lastBlock d)) ->
       JsNum.gtb (parseInt (blockNumber tx)) (lastBlock d) = false) ->
  outbox (run (checkTransactions feed) w) = outbox w /\
  monitoredAddresses (run (checkTransactions feed) w) = monitoredAddresses w.
Proof.
  intros Hold.
  pose (R := fun w1 w2 : World =>
    monitoredAddresses w1 = monitoredAddresses w ->
    monitoredAddresses w2 = monitoredAddresses w /\ outbox w2 = outbox w1).
  unfold run, checkTransactions, bind at 1 2, gets.
  destruct (for_of_preserves R (checkAddress feed) (monitoredAddresses w))
    with (w := w) as (w' & E & HR).
  - intros w0 H0. split; [exact H0 | reflexivity].
  - intros w1 w2 w3 R12 R23 H1.
    destruct (R12 H1) as (H2 & O2). destruct (R23 H2) as (H3 & O3).
    split; [exact H3 | congruence].
  - intros [a d0] w1 Hin.
    destruct (checkAddress_step feed (a, d0) w1) as (w2 & E2 & _).
    exists w2; split; [exact E2|]. intros H1.
    destruct (in_get a d0 _ Hin) as (d & Hget).
    destruct (checkAddress_quiet feed a d0 w1) as (w3 & E3 & M3 & O3).
    + unfold currentBlock. rewrite H1, Hget. exact (Hold a d Hget).
    + rewrite E2 in E3. injection E3 as <-. split; congruence.
  - rewrite E. cbn. destruct (HR eq_refl) as (M & O). split; assumption.
Qed.

(** C2. For a monitored address whose [lastBlock] is [B], the tick's pass
    over that address sends no notification when the feed response holds
    only records with block number at most [B]; the watermark stays [B]. *)
Theorem no_replay_at_or_below_watermark (feed : Feed) (w : World)
  (address : string) (data : AddressData) (B : Z)
  (Hmonitored : Obj.get address (monitoredAddresses w) = Some data)
  (Hpersisted : lastBlock data = Num B)
  (Hold : forall tx, In tx (feed address (Num B)) ->
            JsNum.leb (parseInt (blockNumber tx)) (Num B) = true) :
  result (checkAddress feed (address, data)) w = Ok tt /\
  outbox (run (checkAddress feed (address, data)) w) = outbox w /\
  monitoredAddresses (run (checkAddress feed (address, data)) w)
    = monitoredAddresses w.
Proof.
  assert (Hcur : currentBlock address data w = Num B).
  { unfold currentBlock; rewrite Hmonitored; assumption. }
  unfold result, run. rewrite checkAddress_eq, Hcur.
  destruct (feed address (Num B)) as [|tx txs] eqn:Hfeed.
  - simpl. repeat split.
  - cbv zeta. unfold bind.
    rewrite (old_records_noop address data (Num B) _ w Hcur).
    + simpl. repeat split.
    + intros tx' Hin. apply leb_not_gtb, Hold, Hin.
Qed.

(** *** A new record *)

Lemma checkTransaction_new address data tx w :
  JsNum.gtb (parseInt (blockNumber tx)) (currentBlock address data w) = true ->
  checkTransaction address data tx w =
  ((if negb (isInitializing w) then
      message <- formatTransaction tx address ;; sendNotification message
    else console_log (LogSkipInit (hash tx))) ;;
   setLastBlock address (parseInt (blockNumber tx)))
    (logged (LogNewTx (hash tx) address) w).
Proof.
  intros Hgt.
  unfold checkTransaction, lastBlockOf, bind at 1, gets at 1.
  fold (currentBlock address data w). rewrite Hgt.
  reflexivity.
Qed.

Lemma formatTransaction_listed tx address w entry :
  Obj.get (Str.toLowerCase (contractAddress tx)) (blacklistedContracts w)
    = Some entry ->
  formatTransaction tx address w =
  (Ok None, logged (LogBlacklisted (contractAddress tx) (tokenName tx)) w).
Proof.
  intros H. unfold formatTransaction, bind, gets. rewrite H. reflexivity.
Qed.

Lemma formatTransaction_unlisted tx address w :
  Obj.get (Str.toLowerCase (contractAddress tx)) (blacklistedContracts w)
    = None ->
  formatTransaction tx address w =
  if andb (isIncoming tx address)
          (JsReal.ltb (amountOf tx) (minTransferAmount config))
  then (Ok None,
        logged (LogSmallIncoming (contractAddress tx) (tokenName tx)
                  (amountOf tx)) w)
  else (Ok (Some (render
                    (remark_or
                       (Obj.get (Str.toLowerCase address)
                          (monitoredAddresses w)) Text.unnamed)
                    (if isIncoming tx address
                     then Text.incoming else Text.outgoing)
                    tx address)), w).
Proof.
  intros H. unfold formatTransaction, bind, gets. rewrite H.
  destruct (andb _ _); reflexivity.
Qed.


(** *** The filter *)

Lemma formatTransaction_suppressed tx address w :
  suppressed tx address w = true ->
  exists w',
    formatTransaction tx address w = (Ok None, w') /\
    same_store w w' /\ outbox w' = outbox w /\ channel w' = channel w.
Proof.
  unfold suppressed. intros H.
  destruct (Obj.get _ (blacklistedContracts w)) as [entry|] eqn:Hget.
  - rewrite (formatTransaction_listed _ _ _ _ Hget).
    eexists; split; [reflexivity|]. repeat split.
  - rewrite (formatTransaction_unlisted _ _ _ Hget), H.
    eexists; split; [reflexivity|]. repeat split.
Qed.

(** A new record that the filter suppresses moves the watermark and leaves
    the channel alone. *)
Lemma checkTransaction_silent address data tx w :
  JsNum.gtb (parseInt (blockNumber tx)) (currentBlock address data w) = true ->
  suppressed tx address w = true ->
  exists w',
    checkTransaction address data tx w = (Ok tt, w') /\
    monitoredAddresses w' =
      Obj.adjust (advance (parseInt (blockNumber tx))) address
        (monitoredAddresses w) /\
    blacklistedContracts w' = blacklistedContracts w /\
    isInitializing w' = isInitializing w /\
    addressesFile w' = addressesFile w /\
    outbox w' = outbox w /\ channel w' = channel w.
Proof.
  intros Hgt Hsup. rewrite checkTransaction_new by exact Hgt.
  destruct (isInitializing w) eqn:Hinit; cbn [negb].
  - cbn. eexists; split; [reflexivity|]. cbn. rewrite Hinit. repeat split.
  - unfold bind at 1. unfold bind at 1.
    destruct (formatTransaction_suppressed tx address
                (logged (LogNewTx (hash tx) address) w) Hsup)
      as (w1 & -> & (M1 & B1 & I1 & A1 & F1) & O1 & C1).
    cbn. eexists; split; [reflexivity|]. cbn in *.
    rewrite M1, B1, I1, A1, O1, C1, Hinit. repeat split.
Qed.

Lemma records_keep_file address data txs w :
  exists w',
    for_of txs (checkTransaction address data) w = (Ok tt, w') /\
    record_step w w'.
Proof.
  apply for_of_preserves.
  - intros w0; split; [apply tick_step_refl | reflexivity].
  - intros w1 w2 w3 (S1 & A1) (S2 & A2); split;
      [eapply tick_step_trans; eassumption | congruence].
  - intros tx w0 _.
    destruct (checkTransaction_step address data tx w0) as (w1 & E & S1).
    exists w1; split; [assumption|]. split; [assumption|].
    destruct (checkTransaction_cases address data tx w0) as (w2 & E2 & H).
    rewrite E in E2; injection E2 as <-.
    destruct (JsNum.gtb _ _); [tauto | subst; reflexivity].
Qed.



Lemma adjust_single (f : AddressData -> AddressData) address d :
  Obj.adjust f address [(address, d)] = [(address, f d)].
Proof. simpl. rewrite String.eqb_refl. reflexivity. Qed.

Lemma currentBlock_single address data d w :
  monitoredAddresses w = [(address, d)] ->
  currentBlock address data w = lastBlock d.
Proof.
  intros H. unfold currentBlock. rewrite H. simpl.
  rewrite String.eqb_refl. reflexivity.
Qed.

(** C6, as amended.  In a tick, [saveAddresses] is called for an address
    exactly when the feed response for it is not empty, whether or not one
    of its records is new.  In the scenario of a single address at
    [lastBlock = 100] that receives records at blocks 100, 101 and 105 (the
    token of 101 blacklisted, 105 an incoming transfer below the minimum),
    the tick writes exactly one snapshot, sends no notification and ends
    with [lastBlock = 105]. *)
Theorem snapshot_written_once_per_nonempty_response (feed : Feed)
  (address : string) (data : AddressData) (w : World) :
  (feed address (currentBlock address data w) = [] ->
   addressesFile (run (checkAddress feed (address, data)) w)
     = addressesFile w) /\
  (feed address (currentBlock address data w) <> [] ->
   addressesFile (run (checkAddress feed (address, data)) w)
     = monitoredAddresses (run (checkAddress feed (address, data)) w)
         :: addressesFile w) /\
  (forall r100 r101 r105 entry note,
     monitoredAddresses w = [(address, mkAddressData (Num 100) note)] ->
     feed address (Num 100) = [r100; r101; r105] ->
     parseInt (blockNumber r100) = Num 100 ->
     parseInt (blockNumber r101) = Num 101 ->
     parseInt (blockNumber r105) = Num 105 ->
     Obj.get (Str.toLowerCase (contractAddress r101)) (blacklistedContracts w)
       = Some entry ->
     isIncoming r105 address = true ->
     JsReal.ltb (amountOf r105) (minTransferAmount config) = true ->
     result (checkTransactions feed) w = Ok tt /\
     monitoredAddresses (run (checkTransactions feed) w)
       = [(address, mkAddressData (Num 105) note)] /\
     outbox (run (checkTransactions feed) w) = outbox w /\
     addressesFile (run (checkTransactions feed) w)
       = [(address, mkAddressData (Num 105) note)] :: addressesFile w).
Proof.
  split; [|split].
  - intros Hempty. unfold run. rewrite checkAddress_eq, Hempty. reflexivity.
  - intros Hsome. unfold run. rewrite checkAddress_eq.
    destruct (feed address _) as [|tx txs]; [congruence|].
    unfold bind.
    destruct (records_keep_file address data (tx :: txs) w)
      as (w1 & -> & _ & A1).
    cbn. rewrite A1. reflexivity.
  - intros r100 r101 r105 entry note Hmap Hfeed H100 H101 H105 Hlisted Hin Hlow.
    assert (Hcur : currentBlock address (mkAddressData (Num 100) note) w = Num 100)
      by (apply (currentBlock_single _ _ _ _ Hmap)).
    unfold result, run.
    destruct (checkTransactions feed w) as [r wf] eqn:E.
    unfold checkTransactions, bind at 1, gets in E.
    rewrite Hmap in E. cbn [for_of] in E. unfold bind at 1 in E.
    rewrite checkAddress_eq, Hcur, Hfeed in E.
    cbn [for_of] in E. do 2 (unfold bind at 1 in E).
    (* block 100: not new *)
    destruct (checkTransaction_cases address
                (mkAddressData (Num 100) note) r100 w) as (w0 & E0 & H0).
    rewrite E0 in E; clear E0.
    rewrite Hcur, H100 in H0. cbn in H0. subst w0.
    (* block 101: new, blacklisted *)
    destruct (checkTransaction_silent address
                (mkAddressData (Num 100) note) r101 w)
      as (w1 & E1 & M1 & B1 & I1 & A1 & O1 & C1).
    { rewrite Hcur, H101. reflexivity. }
    { unfold suppressed. rewrite Hlisted. reflexivity. }
    unfold bind at 1 in E. rewrite E1 in E; clear E1.
    rewrite Hmap, adjust_single in M1. cbn [advance remark] in M1.
    rewrite H101 in M1.
    (* block 105: new, below the minimum or blacklisted *)
    destruct (checkTransaction_silent address
                (mkAddressData (Num 100) note) r105 w1)
      as (w2 & E2 & M2 & B2 & I2 & A2 & O2 & C2).
    { rewrite (currentBlock_single _ _ _ _ M1), H105. reflexivity. }
    { unfold suppressed. rewrite B1, Hin, Hlow.
      destruct (Obj.get (Str.toLowerCase (contractAddress r105))
                  (blacklistedContracts w)); reflexivity. }
    unfold bind at 1 in E. rewrite E2 in E; clear E2.
    rewrite M1, adjust_single in M2. cbn [advance remark] in M2.
    rewrite H105 in M2.
    cbn in E. injection E as <- <-.
    cbn. rewrite M2, O2, O1, A2, A1. repeat split.
Qed.

(** *** Startup *)

Lemma synced_idem feed address d :
  synced feed address (synced feed address d) = synced feed address d.
Proof. unfold synced. destruct (blocksOf _); reflexivity. Qed.

Lemma get_in_keys {V} (a : string) (o : Obj.t V) (v : V) :
  Obj.get a o = Some v -> In a (Obj.keys o).
Proof.
  induction o as [|[k v'] o IH]; simpl; [discriminate|].
  destruct (String.eqb a k) eqn:E.
  - apply String.eqb_eq in E. auto.
  - auto.
Qed.

Lemma syncAddress_step feed address data w :
  exists w',
    syncAddress feed (address, data) w = (Ok tt, w') /\
    (forall a,
       Obj.get a (monitoredAddresses w') =
       if String.eqb address a
       then option_map (synced feed address) (Obj.get a (monitoredAddresses w))
       else Obj.get a (monitoredAddresses w)) /\
    blacklistedContracts w' = blacklistedContracts w /\
    addressesFile w' = addressesFile w /\
    outbox w' = outbox w /\ channel w' = channel w.
Proof.
  unfold syncAddress, try_catch, getTokenTransfers, lastBlockOf, bind, gets,
    ret, synced.
  destruct (blocksOf (feed address (Num 0))) as [|b bs]; cbn.
  - eexists; split; [reflexivity|]. cbn. repeat split.
    intros a. destruct (String.eqb address a); [|reflexivity].
    destruct (Obj.get a _); reflexivity.
  - eexists; split; [reflexivity|]. cbn. repeat split.
    intros a. apply get_adjust.
Qed.

Lemma sync_loop feed (entries : Obj.t AddressData) : forall w,
  exists w',
    for_of entries (syncAddress feed) w = (Ok tt, w') /\
    (forall a,
       (In a (Obj.keys entries) ->
        Obj.get a (monitoredAddresses w') =
        option_map (synced feed a) (Obj.get a (monitoredAddresses w))) /\
       (~ In a (Obj.keys entries) ->
        Obj.get a (monitoredAddresses w') = Obj.get a (monitoredAddresses w))) /\
    blacklistedContracts w' = blacklistedContracts w /\
    addressesFile w' = addressesFile w /\
    outbox w' = outbox w /\ channel w' = channel w.
Proof.
  induction entries as [|[k data] entries IH]; intros w; cbn [for_of].
  - exists w; split; [reflexivity|]. repeat split; simpl; tauto.
  - unfold bind.
    destruct (syncAddress_step feed k data w)
      as (w1 & -> & G1 & B1 & A1 & O1 & C1).
    destruct (IH w1) as (w2 & -> & G2 & B2 & A2 & O2 & C2).
    exists w2; split; [reflexivity|].
    repeat split; try congruence.
    + intros Hin. destruct (G2 a) as [Gin Gout].
      assert (Hdec : In a (Obj.keys entries) \/ ~ In a (Obj.keys entries)).
      { destruct (in_dec string_dec a (Obj.keys entries)); auto. }
      destruct Hdec as [Hrest|Hrest].
      * rewrite (Gin Hrest), G1.
        destruct (String.eqb k a) eqn:E; [|reflexivity].
        apply String.eqb_eq in E; subst k.
        destruct (Obj.get a (monitoredAddresses w)); simpl;
          [rewrite synced_idem|]; reflexivity.
      * rewrite (Gout Hrest), G1.
        destruct Hin as [Hk|Hk]; [|contradiction].
        simpl in Hk; subst k. rewrite String.eqb_refl. reflexivity.
    + intros Hout. destruct (G2 a) as [_ Gout].
      simpl in Hout.
      rewrite Gout by tauto. rewrite G1.
      destruct (String.eqb k a) eqn:E; [|reflexivity].
      apply String.eqb_eq in E. tauto.
Qed.




(** *** Commands *)

Lemma reply_only chat text w :
  same_store w (run (reply chat text) w) /\
  replied chat text w (run (reply chat text) w).
Proof.
  run_handler.
  destruct (channel w) as [|[|] rest]; cbn;
    (split; [repeat split | eexists; reflexivity]).
Qed.


Lemma onAdd_present feed arg w d :
  Str.isAddressFormat (Str.toLowerCase (Str.trim arg)) = true ->
  Obj.get (Str.toLowerCase (Str.trim arg)) (monitoredAddresses w) = Some d ->
  onAdd feed (chatId config) arg w
    = reply (chatId config) Text.already_monitored w.
Proof.
  intros Hfmt Hget. unfold onAdd. rewrite String.eqb_refl, Hfmt. cbn [negb].
  unfold bind at 1, gets at 1. rewrite Hget. reflexivity.
Qed.

Lemma onAdd_then_present feed arg w :
  Str.isAddressFormat (Str.toLowerCase (Str.trim arg)) = true ->
  exists d,
    Obj.get (Str.toLowerCase (Str.trim arg))
      (monitoredAddresses (run (onAdd feed (chatId config) arg) w)) = Some d.
Proof.
  intros Hfmt.
  destruct (Obj.get (Str.toLowerCase (Str.trim arg)) (monitoredAddresses w))
    as [d|] eqn:Hget.
  - unfold run. rewrite (onAdd_present feed arg w d Hfmt Hget).
    destruct (reply_only (chatId config) Text.already_monitored w)
      as ((M & _) & _).
    unfold run in M. rewrite M. eauto.
  - unfold run, onAdd. rewrite String.eqb_refl, Hfmt. cbn [negb].
    unfold bind at 1, gets at 1. rewrite Hget.
    run_handler.
    destruct (channel w) as [|[|] rest]; cbn; rewrite get_set_same; eauto.
Qed.




Lemma onBlacklist_present now arg w e :
  Str.isAddressFormat (Str.toLowerCase (Str.trim arg)) = true ->
  Obj.get (Str.toLowerCase (Str.trim arg)) (blacklistedContracts w) = Some e ->
  onBlacklist now (chatId config) arg w
    = reply (chatId config) Text.already_blacklisted w.
Proof.
  intros Hfmt Hget. unfold onBlacklist.
  rewrite String.eqb_refl, Hfmt. cbn [negb].
  unfold bind at 1, gets at 1. rewrite Hget. reflexivity.
Qed.



(** *** The dispatcher *)





(** *** Amounts *)

Lemma geb_true (v t : Q) : (t <= v)%Q -> JsReal.geb (Real v) t = true.
Proof. intros H. simpl. apply Qle_bool_iff. exact H. Qed.

Lemma geb_false (v t : Q) : (v < t)%Q -> JsReal.geb (Real v) t = false.
Proof.
  intros H. simpl. destruct (Qle_bool t v) eqn:E; [|reflexivity].
  apply Qle_bool_iff in E. exfalso. exact (Qlt_not_le _ _ H E).
Qed.


(** *** More on objects *)

Lemma get_none_not_in {V} (k : string) (o : Obj.t V) :
  Obj.get k o = None -> ~ In k (Obj.keys o).
Proof.
  induction o as [|[k' v] o IH]; simpl; [tauto|].
  destruct (String.eqb k k') eqn:E; [discriminate|].
  apply String.eqb_neq in E. intros H [Hk|Hk]; [congruence | tauto].
Qed.

Lemma set_absent {V} (k : string) (v : V) (o : Obj.t V) :
  Obj.get k o = None -> Obj.set k v o = (o ++ [(k, v)])%list.
Proof.
  induction o as [|[k' v'] o IH]; simpl; [reflexivity|].
  destruct (String.eqb k k'); [discriminate|].
  intros H. rewrite (IH H). reflexivity.
Qed.

Lemma delete_absent {V} (k : string) (o : Obj.t V) :
  Obj.get k o = None -> Obj.delete k o = o.
Proof.
  induction o as [|[k' v'] o IH]; simpl; [reflexivity|].
  destruct (String.eqb k k'); [discriminate|].
  intros H. rewrite (IH H). reflexivity.
Qed.

Lemma delete_app {V} (k : string) (o1 o2 : Obj.t V) :
  Obj.delete k (o1 ++ o2)%list = (Obj.delete k o1 ++ Obj.delete k o2)%list.
Proof.
  induction o1 as [|[k' v'] o1 IH]; simpl; [reflexivity|].
  destruct (String.eqb k k'); rewrite IH; reflexivity.
Qed.

Lemma get_delete {V} (k a : string) (o : Obj.t V) :
  Obj.get a (Obj.delete k o) = if String.eqb k a then None else Obj.get a o.
Proof.
  induction o as [|[k' v'] o IH]; simpl.
  - destruct (String.eqb k a); reflexivity.
  - destruct (String.eqb k k') eqn:Hk; simpl.
    + apply String.eqb_eq in Hk; subst k'. rewrite IH.
      rewrite (String.eqb_sym a k). destruct (String.eqb k a); reflexivity.
    + rewrite IH. destruct (String.eqb a k') eqn:Ha; [|reflexivity].
      apply String.eqb_eq in Ha; subst k'. rewrite Hk. reflexivity.
Qed.


Lemma keys_adjust {V} (f : V -> V) (k : string) (o : Obj.t V) :
  Obj.keys (Obj.adjust f k o) = Obj.keys o.
Proof.
  induction o as [|[k' v'] o IH]; simpl; [reflexivity|].
  destruct (String.eqb k k'); simpl; [|rewrite IH]; reflexivity.
Qed.

Lemma keys_delete {V} (k : string) (o : Obj.t V) :
  Obj.keys (Obj.delete k o)
    = filter (fun k' => negb (String.eqb k k')) (Obj.keys o).
Proof.
  induction o as [|[k' v'] o IH]; simpl; [reflexivity|].
  destruct (String.eqb k k'); simpl; rewrite IH; reflexivity.
Qed.

Lemma labels_adjust blockNum k (o : Obj.t AddressData) :
  labels (Obj.adjust (advance blockNum) k o) = labels o.
Proof.
  induction o as [|[k' v'] o IH]; simpl; [reflexivity|].
  destruct (String.eqb k k'); simpl; [|rewrite IH]; reflexivity.
Qed.

Lemma labels_keys (o : Obj.t AddressData) :
  Obj.keys o = map fst (labels o).
Proof.
  unfold labels, Obj.keys. rewrite map_map. reflexivity.
Qed.

(** *** More on commands *)

Lemma reply_world chat text w :
  exists ok w',
    reply chat text w = (Ok tt, w') /\ same_store w w' /\
    outbox w' = mkSent chat text ok :: outbox w.
Proof.
  unfold reply, detached, bot_sendMessage.
  destruct (channel w) as [|[|] rest]; cbn;
    eexists _, _; (split; [reflexivity|]); repeat split.
Qed.

Lemma eqb_chat_false chat :
  chat <> chatId config -> String.eqb chat (chatId config) = false.
Proof. intros H. apply String.eqb_neq. exact H. Qed.

(** X1. A command that comes from another chat than the configured one is
    ignored by every handler: nothing is answered, written, logged or
    changed. *)
Theorem foreign_chat_is_ignored (chat : string) (w : World)
  (Hforeign : chat <> chatId config) :
  (forall feed arg, onAdd feed chat arg w = (Ok tt, w)) /\
  (forall arg, onRemove chat arg w = (Ok tt, w)) /\
  (forall arg text, onRemark chat arg text w = (Ok tt, w)) /\
  onList chat w = (Ok tt, w) /\
  onHelp chat w = (Ok tt, w) /\
  (forall now arg, onBlacklist now chat arg w = (Ok tt, w)) /\
  (forall arg, onUnblacklist chat arg w = (Ok tt, w)) /\
  onBlacklistList chat w = (Ok tt, w).
Proof.
  pose proof (eqb_chat_false chat Hforeign) as E.
  unfold onAdd, onRemove, onRemark, onList, onHelp, onBlacklist,
    onUnblacklist, onBlacklistList.
  rewrite E. repeat split.
Qed.

(** X2. The commands that only read, [/list], [/help] and
    [/blacklist_list], answer the operator with one message and change
    neither map nor file; on an empty map the answer is the empty notice. *)
Theorem reading_commands_change_nothing (w : World) :
  let chat := chatId config in
  (same_store w (run (onList chat) w) /\
   exists text, replied chat text w (run (onList chat) w)) /\
  (monitoredAddresses w = [] ->
   replied chat list_empty w (run (onList chat) w)) /\
  (same_store w (run (onHelp chat) w) /\
   replied chat helpText w (run (onHelp chat) w)) /\
  (same_store w (run (onBlacklistList chat) w) /\
   exists text, replied chat text w (run (onBlacklistList chat) w)) /\
  (blacklistedContracts w = [] ->
   replied chat blacklist_empty w (run (onBlacklistList chat) w)).
Proof.
  cbv zeta.
  unfold run, onList, onHelp, onBlacklistList.
  rewrite String.eqb_refl. cbn [negb]. unfold bind, gets.
  split; [|split; [|split; [|split]]].
  - destruct (Obj.keys (monitoredAddresses w)).
    + split; [|eexists]; apply reply_only.
    + split; [|eexists]; apply reply_only.
  - intros ->. apply reply_only.
  - apply reply_only.
  - destruct (Obj.keys (blacklistedContracts w)).
    + split; [|eexists]; apply reply_only.
    + split; [|eexists]; apply reply_only.
  - intros ->. apply reply_only.
Qed.

Lemma onAdd_fresh_eq feed arg w :
  Str.isAddressFormat (Str.toLowerCase (Str.trim arg)) = true ->
  Obj.get (Str.toLowerCase (Str.trim arg)) (monitoredAddresses w) = None ->
  onAdd feed (chatId config) arg w =
  (let address := Str.toLowerCase (Str.trim arg) in
   let lastBlock :=
     match blocksOf (feed address (Num 0)) with
     | b :: bs => JsNum.Math_max b bs
     | [] => Num 0
     end in
   modify (with_monitored (Obj.set address (mkAddressData lastBlock None))) ;;
   saveAddresses ;;
   reply (chatId config)
     ("✅ 已添加监控地址:" ++ nl ++ address ++ nl ++
      "从区块 " ++ jsnum_toString lastBlock ++ " 开始监控") ;;
   console_log (LogAdded address lastBlock)) w.
Proof.
  intros Hformat Habsent. unfold onAdd.
  rewrite String.eqb_refl, Hformat. cbn [negb].
  unfold bind at 1, gets at 1. rewrite Habsent. reflexivity.
Qed.

Lemma onRemove_present_eq arg w d :
  Obj.get (Str.toLowerCase (Str.trim arg)) (monitoredAddresses w) = Some d ->
  onRemove (chatId config) arg w =
  (let address := Str.toLowerCase (Str.trim arg) in
   modify (with_monitored (Obj.delete address)) ;;
   saveAddresses ;;
   reply (chatId config) ("✅ 已移除监控地址:" ++ nl ++ address) ;;
   console_log (LogRemoved address)) w.
Proof.
  intros Hget. unfold onRemove. rewrite String.eqb_refl. cbn [negb].
  unfold bind at 1, gets at 1. rewrite Hget. reflexivity.
Qed.


Lemma onBlacklist_fresh_eq now arg w :
  Str.isAddressFormat (Str.toLowerCase (Str.trim arg)) = true ->
  Obj.get (Str.toLowerCase (Str.trim arg)) (blacklistedContracts w) = None ->
  onBlacklist now (chatId config) arg w =
  (let contractAddress := Str.toLowerCase (Str.trim arg) in
   modify (with_blacklist (Obj.set contractAddress (mkBlacklistEntry now))) ;;
   saveBlacklist ;;
   reply (chatId config) ("✅ 已添加到黑名单:" ++ nl ++ contractAddress) ;;
   console_log (LogBlacklistAdded contractAddress)) w.
Proof.
  intros Hformat Habsent. unfold onBlacklist.
  rewrite String.eqb_refl, Hformat. cbn [negb].
  unfold bind at 1, gets at 1. rewrite Habsent. reflexivity.
Qed.

Lemma onUnblacklist_present_eq arg w e :
  Obj.get (Str.toLowerCase (Str.trim arg)) (blacklistedContracts w) = Some e ->
  onUnblacklist (chatId config) arg w =
  (let contractAddress := Str.toLowerCase (Str.trim arg) in
   modify (with_blacklist (Obj.delete contractAddress)) ;;
   saveBlacklist ;;
   reply (chatId config) ("✅ 已从黑名单移除:" ++ nl ++ contractAddress) ;;
   console_log (LogBlacklistRemoved contractAddress)) w.
Proof.
  intros Hget. unfold onUnblacklist. rewrite String.eqb_refl. cbn [negb].
  unfold bind at 1, gets at 1. rewrite Hget. reflexivity.
Qed.

(** X3. [/add] of a well-formed address that is not monitored yet appends
    it to the watch-list, lower-cased and trimmed, with no label and with
    [lastBlock] at the highest block of its fetched history (0 when the
    fetch returns nothing); it writes one snapshot, which holds the new
    map, answers once, and leaves the other entries and the blacklist as
    they were. *)
Theorem add_appends_address (feed : Feed) (arg : string) (w : World)
  (Hformat : Str.isAddressFormat (Str.toLowerCase (Str.trim arg)) = true)
  (Habsent : Obj.get (Str.toLowerCase (Str.trim arg)) (monitoredAddresses w)
               = None) :
  let key := Str.toLowerCase (Str.trim arg) in
  let start :=
    match blocksOf (feed key (Num 0)) with
    | b :: bs => JsNum.Math_max b bs
    | [] => Num 0
    end in
  let w' := run (onAdd feed (chatId config) arg) w in
  result (onAdd feed (chatId config) arg) w = Ok tt /\
  monitoredAddresses w'
    = (monitoredAddresses w ++ [(key, mkAddressData start None)])%list /\
  addressesFile w' = monitoredAddresses w' :: addressesFile w /\
  blacklistedContracts w' = blacklistedContracts w /\
  blacklistFile w' = blacklistFile w /\
  (exists text, replied (chatId config) text w w').
Proof.
  cbv zeta. unfold result, run.
  rewrite (onAdd_fresh_eq feed arg w Hformat Habsent).
  rewrite <- (set_absent _ _ _ Habsent).
  handler_done w.
Qed.

(** X4. [/remove] of a monitored address deletes its entry and nothing
    else: the address is no longer found, every other address keeps its
    entry, and the snapshot that is written holds the new map. *)
Theorem remove_deletes_address (arg : string) (w : World) (d : AddressData)
  (Hpresent : Obj.get (Str.toLowerCase (Str.trim arg)) (monitoredAddresses w)
                = Some d) :
  let key := Str.toLowerCase (Str.trim arg) in
  let w' := run (onRemove (chatId config) arg) w in
  result (onRemove (chatId config) arg) w = Ok tt /\
  Obj.get key (monitoredAddresses w') = None /\
  (forall a, a <> key ->
     Obj.get a (monitoredAddresses w') = Obj.get a (monitoredAddresses w)) /\
  addressesFile w' = monitoredAddresses w' :: addressesFile w /\
  blacklistedContracts w' = blacklistedContracts w /\
  blacklistFile w' = blacklistFile w /\
  (exists text, replied (chatId config) text w w').
Proof.
  cbv zeta. unfold result, run.
  rewrite (onRemove_present_eq arg w d Hpresent).
  assert (Hself : Obj.get (Str.toLowerCase (Str.trim arg))
                    (Obj.delete (Str.toLowerCase (Str.trim arg))
                       (monitoredAddresses w)) = None)
    by (rewrite get_delete, String.eqb_refl; reflexivity).
  assert (Hother : forall a, a <> Str.toLowerCase (Str.trim arg) ->
            Obj.get a (Obj.delete (Str.toLowerCase (Str.trim arg))
                         (monitoredAddresses w))
              = Obj.get a (monitoredAddresses w)).
  { intros a Ha. rewrite get_delete.
    destruct (String.eqb _ a) eqn:E; [|reflexivity].
    apply String.eqb_eq in E. congruence. }
  handler_done w; assumption.
Qed.

(** X5. [/add] of a new address followed by [/remove] of the same address,
    in any letter case, gives back the watch-list as it was. *)
Theorem add_then_remove_restores (feed : Feed) (arg arg' : string) (w : World)
  (Hformat : Str.isAddressFormat (Str.toLowerCase (Str.trim arg)) = true)
  (Habsent : Obj.get (Str.toLowerCase (Str.trim arg)) (monitoredAddresses w)
               = None)
  (Hsame : Str.toLowerCase (Str.trim arg') = Str.toLowerCase (Str.trim arg)) :
  monitoredAddresses
    (run (onRemove (chatId config) arg')
       (run (onAdd feed (chatId config) arg) w))
  = monitoredAddresses w.
Proof.
  destruct (onAdd_then_present feed arg w Hformat) as (d & Hget).
  rewrite <- Hsame in Hget.
  unfold run at 1. rewrite (onRemove_present_eq arg' _ d Hget).
  assert (Hmap : monitoredAddresses (run (onAdd feed (chatId config) arg) w)
            = Obj.set (Str.toLowerCase (Str.trim arg))
                (mkAddressData
                   match blocksOf (feed (Str.toLowerCase (Str.trim arg))
                                     (Num 0)) with
                   | b :: bs => JsNum.Math_max b bs
                   | [] => Num 0
                   end None) (monitoredAddresses w)).
  { unfold run. rewrite (onAdd_fresh_eq feed arg w Hformat Habsent).
    handler_done w. }
  cbv zeta. run_handler.
  destruct (channel (snd (onAdd feed (chatId config) arg w)))
    as [|[|] ?]; cbn; fold (run (onAdd feed (chatId config) arg) w);
    rewrite Hmap, Hsame, (set_absent _ _ _ Habsent), delete_app,
      (delete_absent _ _ Habsent); simpl; rewrite String.eqb_refl;
    apply app_nil_r.
Qed.


Lemma onBlacklist_then_present now arg w :
  Str.isAddressFormat (Str.toLowerCase (Str.trim arg)) = true ->
  exists e,
    Obj.get (Str.toLowerCase (Str.trim arg))
      (blacklistedContracts (run (onBlacklist now (chatId config) arg) w))
      = Some e.
Proof.
  intros Hformat.
  destruct (Obj.get (Str.toLowerCase (Str.trim arg)) (blacklistedContracts w))
    as [e|] eqn:Hget.
  - unfold run. rewrite (onBlacklist_present now arg w e Hformat Hget).
    destruct (reply_only (chatId config) Text.already_blacklisted w)
      as ((_ & B & _) & _).
    unfold run in B. rewrite B. eauto.
  - unfold run. rewrite (onBlacklist_fresh_eq now arg w Hformat Hget).
    cbv zeta. run_handler.
    destruct (channel w) as [|[|] ?]; cbn; rewrite get_set_same; eauto.
Qed.

(** X7. After [/blacklist] of a well-formed contract address, every
    transfer of that contract, in whatever letter case the feed writes it,
    is suppressed for every monitored address; the watch-list and its file
    are untouched, and a contract that was not listed is appended to the
    blacklist and written to the blacklist file. *)
Theorem blacklist_silences_contract (now arg : string) (w : World)
  (Hformat : Str.isAddressFormat (Str.toLowerCase (Str.trim arg)) = true) :
  let key := Str.toLowerCase (Str.trim arg) in
  let w' := run (onBlacklist now (chatId config) arg) w in
  (forall tx address,
     Str.toLowerCase (contractAddress tx) = key ->
     result (formatTransaction tx address) w' = Ok None) /\
  monitoredAddresses w' = monitoredAddresses w /\
  addressesFile w' = addressesFile w /\
  (Obj.get key (blacklistedContracts w) = None ->
   blacklistedContracts w'
     = (blacklistedContracts w ++ [(key, mkBlacklistEntry now)])%list /\
   blacklistFile w' = blacklistedContracts w' :: blacklistFile w).
Proof.
  cbv zeta. split; [|split; [|split]].
  - intros tx address Hkey.
    destruct (onBlacklist_then_present now arg w Hformat) as (e & Hget).
    rewrite <- Hkey in Hget. unfold result.
    rewrite (formatTransaction_listed _ _ _ _ Hget). reflexivity.
  - destruct (Obj.get (Str.toLowerCase (Str.trim arg))
                (blacklistedContracts w)) as [e|] eqn:Hget; unfold run.
    + rewrite (onBlacklist_present now arg w e Hformat Hget).
      apply reply_only.
    + rewrite (onBlacklist_fresh_eq now arg w Hformat Hget). handler_done w.
  - destruct (Obj.get (Str.toLowerCase (Str.trim arg))
                (blacklistedContracts w)) as [e|] eqn:Hget; unfold run.
    + rewrite (onBlacklist_present now arg w e Hformat Hget).
      apply reply_only.
    + rewrite (onBlacklist_fresh_eq now arg w Hformat Hget). handler_done w.
  - intros Habsent. unfold run.
    rewrite (onBlacklist_fresh_eq now arg w Hformat Habsent).
    rewrite <- (set_absent _ _ _ Habsent). handler_done w.
Qed.


(** X9. [/blacklist] of a contract that is not listed followed by
    [/unblacklist] of the same contract, in any letter case, gives back the
    blacklist as it was. *)
Theorem blacklist_then_unblacklist_restores (now arg arg' : string)
  (w : World)
  (Hformat : Str.isAddressFormat (Str.toLowerCase (Str.trim arg)) = true)
  (Habsent : Obj.get (Str.toLowerCase (Str.trim arg)) (blacklistedContracts w)
               = None)
  (Hsame : Str.toLowerCase (Str.trim arg') = Str.toLowerCase (Str.trim arg)) :
  blacklistedContracts
    (run (onUnblacklist (chatId config) arg')
       (run (onBlacklist now (chatId config) arg) w))
  = blacklistedContracts w.
Proof.
  destruct (onBlacklist_then_present now arg w Hformat) as (e & Hget).
  rewrite <- Hsame in Hget.
  assert (Hmap : blacklistedContracts
                   (run (onBlacklist now (chatId config) arg) w)
            = Obj.set (Str.toLowerCase (Str.trim arg)) (mkBlacklistEntry now)
                (blacklistedContracts w)).
  { unfold run. rewrite (onBlacklist_fresh_eq now arg w Hformat Habsent).
    handler_done w. }
  unfold run at 1. rewrite (onUnblacklist_present_eq arg' _ e Hget).
  cbv zeta. run_handler.
  destruct (channel (snd (onBlacklist now (chatId config) arg w)))
    as [|[|] ?]; cbn; fold (run (onBlacklist now (chatId config) arg) w);
    rewrite Hmap, Hsame, (set_absent _ _ _ Habsent), delete_app,
      (delete_absent _ _ Habsent); simpl; rewrite String.eqb_refl;
    apply app_nil_r.
Qed.

(** *** The files follow the maps *)

Lemma checkAddress_sync feed entry w :
  exists w',
    checkAddress feed entry w = (Ok tt, w') /\
    (addresses_in_sync w -> addresses_in_sync w').
Proof.
  destruct entry as [address data]. rewrite checkAddress_eq.
  destruct (feed address _) as [|tx txs].
  - exists w; split; [reflexivity | tauto].
  - unfold bind.
    destruct (records_keep_file address data (tx :: txs) w)
      as (w1 & -> & _ & _).
    eexists; split; [reflexivity|]. intros _. reflexivity.
Qed.

Lemma checkTransactions_sync feed w :
  addresses_in_sync w -> addresses_in_sync (run (checkTransactions feed) w).
Proof.
  unfold run, checkTransactions, bind at 1, gets.
  destruct (for_of_preserves
              (fun w1 w2 => addresses_in_sync w1 -> addresses_in_sync w2)
              (checkAddress feed) (monitoredAddresses w)) with (w := w)
    as (w' & E & H).
  - tauto.
  - tauto.
  - intros entry w0 _. apply checkAddress_sync.
  - rewrite E. exact H.
Qed.

Lemma syncAddress_monitored feed address data w :
  exists w',
    syncAddress feed (address, data) w = (Ok tt, w') /\
    monitoredAddresses w' =
      match blocksOf (feed address (Num 0)) with
      | b :: bs =>
          Obj.adjust (advance (JsNum.Math_max b bs)) address
            (monitoredAddresses w)
      | [] => monitoredAddresses w
      end /\
    blacklistFile w' = blacklistFile w /\
    isInitializing w' = isInitializing w.
Proof.
  unfold syncAddress, try_catch, getTokenTransfers, lastBlockOf, bind, gets,
    ret.
  destruct (blocksOf (feed address (Num 0))) as [|b bs]; cbn;
    eexists; (split; [reflexivity|]); repeat split.
Qed.

(** What the startup loop leaves alone. *)
Lemma sync_loop_frame feed entries w :
  exists w',
    for_of entries (syncAddress feed) w = (Ok tt, w') /\
    labels (monitoredAddresses w') = labels (monitoredAddresses w) /\
    blacklistFile w' = blacklistFile w /\
    isInitializing w' = isInitializing w.
Proof.
  apply (for_of_preserves
           (fun w1 w2 =>
              labels (monitoredAddresses w2) = labels (monitoredAddresses w1) /\
              blacklistFile w2 = blacklistFile w1 /\
              isInitializing w2 = isInitializing w1)).
  - repeat split.
  - intros w1 w2 w3 (L1 & F1 & I1) (L2 & F2 & I2). repeat split; congruence.
  - intros [address data] w0 _.
    destruct (syncAddress_monitored feed address data w0)
      as (w1 & E & M & F & I).
    exists w1; split; [exact E|]. split; [|split; assumption].
    rewrite M. destruct (blocksOf _); [reflexivity | apply labels_adjust].
Qed.

Lemma init_files feed w :
  exists w',
    init feed w = (Ok tt, w') /\
    hd_error (addressesFile w') = Some (monitoredAddresses w') /\
    blacklistedContracts w' = blacklistedContracts w /\
    blacklistFile w' = blacklistFile w /\
    labels (monitoredAddresses w') = labels (monitoredAddresses w) /\
    isInitializing w' = false.
Proof.
  unfold init, bind at 1, gets at 1. unfold bind at 1.
  destruct (sync_loop feed (monitoredAddresses w) w)
    as (w1 & E1 & _ & B1 & _).
  destruct (sync_loop_frame feed (monitoredAddresses w) w)
    as (w1' & E1' & L1 & F1 & _).
  rewrite E1 in E1'. injection E1' as <-. rewrite E1.
  unfold bind at 1, saveAddresses, modify at 1.
  unfold bind at 1, console_log, modify at 1.
  unfold bind at 1, modify at 1, with_initializing.
  unfold bind at 1, gets.
  match goal with
  | |- context [sendNotification ?m ?w0] =>
      destruct (sendNotification_frame m w0)
        as (w2 & -> & (M2 & B2 & I2 & A2 & F2) & _)
  end.
  exists w2; split; [reflexivity|].
  cbn in *. rewrite M2, A2, B2, F2, B1, F1, L1, I2. repeat split.
Qed.

(** X10. The snapshot files follow the maps.  When the last snapshot
    written to each file holds the map that is in memory, this is still so
    after a tick and after every command, from any chat and on any
    argument; and the startup pass ends with the watch-list written as it
    is in memory, whatever the files held before. *)
Theorem files_follow_maps (w : World)
  (Hsync : addresses_in_sync w /\ blacklist_in_sync w) :
  let both w' := addresses_in_sync w' /\ blacklist_in_sync w' in
  (forall feed, both (run (checkTransactions feed) w)) /\
  (forall feed, both (run (init feed) w)) /\
  (forall feed chat arg, both (run (onAdd feed chat arg) w)) /\
  (forall chat arg, both (run (onRemove chat arg) w)) /\
  (forall chat arg text, both (run (onRemark chat arg text) w)) /\
  (forall now chat arg, both (run (onBlacklist now chat arg) w)) /\
  (forall chat arg, both (run (onUnblacklist chat arg) w)) /\
  (forall chat,
     both (run (onList chat) w) /\ both (run (onHelp chat) w) /\
     both (run (onBlacklistList chat) w)).
Proof.
  destruct Hsync as [Ha Hb]. cbv zeta.
  unfold addresses_in_sync, blacklist_in_sync in *.
  split; [|split; [|split; [|split; [|split; [|split; [|split]]]]]].
  - intros feed. split.
    + apply checkTransactions_sync. exact Ha.
    + destruct (checkTransactions_step feed w) as (w' & E & _ & B & _ & F).
      unfold run. rewrite E. cbn. rewrite B, F. exact Hb.
  - intros feed.
    destruct (init_files feed w) as (w' & E & A & B & F & _).
    unfold run. rewrite E. cbn. rewrite B, F. split; [exact A | exact Hb].
  - intros feed chat arg. unfold run.
    destruct (onAdd feed chat arg w) as [r w'] eqn:E. unfold onAdd in E.
    handler_cases E w; rewrite ?Ha, ?Hb; split; reflexivity.
  - intros chat arg. unfold run.
    destruct (onRemove chat arg w) as [r w'] eqn:E. unfold onRemove in E.
    handler_cases E w; rewrite ?Ha, ?Hb; split; reflexivity.
  - intros chat arg text. unfold run.
    destruct (onRemark chat arg text w) as [r w'] eqn:E. unfold onRemark in E.
    handler_cases E w; rewrite ?Ha, ?Hb; split; reflexivity.
  - intros now chat arg. unfold run.
    destruct (onBlacklist now chat arg w) as [r w'] eqn:E. unfold onBlacklist in E.
    handler_cases E w; rewrite ?Ha, ?Hb; split; reflexivity.
  - intros chat arg. unfold run.
    destruct (onUnblacklist chat arg w) as [r w'] eqn:E. unfold onUnblacklist in E.
    handler_cases E w; rewrite ?Ha, ?Hb; split; reflexivity.
  - intros chat. unfold run, onList, onHelp, onBlacklistList.
    destruct (String.eqb chat (chatId config)); cbn [negb].
    + unfold bind, gets.
      destruct (Obj.keys (monitoredAddresses w));
        destruct (Obj.keys (blacklistedContracts w));
        run_handler; destruct (channel w) as [|[|] ?]; cbn;
        rewrite ?Ha, ?Hb; repeat split.
    + cbn. rewrite Ha, Hb. repeat split.
Qed.

(** *** Settled records *)

Lemma settled_refl (b : jsnum) : settled_at b b.
Proof.
  unfold settled_at. destruct b as [|x]; simpl; [reflexivity|].
  apply Z.ltb_irrefl.
Qed.


Lemma settled_max2_left (x a b : jsnum) :
  settled_at x a -> settled_at x (JsNum.max2 a b).
Proof.
  unfold settled_at.
  destruct x as [|z], a as [|p], b as [|q]; simpl; try reflexivity.
  intros H. apply Z.ltb_ge. apply Z.ltb_ge in H. lia.
Qed.

Lemma settled_max2_right (a b : jsnum) : settled_at b (JsNum.max2 a b).
Proof.
  unfold settled_at.
  destruct a as [|p], b as [|q]; simpl; try reflexivity.
  apply Z.ltb_ge. lia.
Qed.

Lemma settled_fold (bs : list jsnum) : forall acc x,
  settled_at x acc -> settled_at x (fold_left JsNum.max2 bs acc).
Proof.
  induction bs as [|b bs IH]; intros acc x H; simpl; [exact H|].
  apply IH. apply settled_max2_left. exact H.
Qed.

(** No argument of [Math.max] is above its result. *)
Lemma Math_max_settles (b : jsnum) (bs : list jsnum) (x : jsnum) :
  In x (b :: bs) -> settled_at x (JsNum.Math_max b bs).
Proof.
  unfold JsNum.Math_max. revert b.
  induction bs as [|y bs IH]; intros b [<-|Hin]; simpl.
  - apply settled_refl.
  - destruct Hin.
  - apply settled_fold. apply settled_max2_left. apply settled_refl.
  - destruct Hin as [<-|Hin].
    + apply settled_fold. apply settled_max2_right.
    + apply IH. right. exact Hin.
Qed.





Lemma checkTransaction_labels address data tx w :
  exists w',
    checkTransaction address data tx w = (Ok tt, w') /\
    labels (monitoredAddresses w') = labels (monitoredAddresses w).
Proof.
  destruct (checkTransaction_cases address data tx w) as (w' & E & H).
  exists w'; split; [exact E|].
  destruct (JsNum.gtb _ _).
  - destruct H as (-> & _). apply labels_adjust.
  - subst w'. reflexivity.
Qed.

Lemma checkAddress_labels feed entry w :
  exists w',
    checkAddress feed entry w = (Ok tt, w') /\
    labels (monitoredAddresses w') = labels (monitoredAddresses w).
Proof.
  destruct entry as [address data]. rewrite checkAddress_eq.
  destruct (feed address _) as [|tx txs].
  - exists w; split; reflexivity.
  - unfold bind.
    destruct (for_of_preserves
                (fun w1 w2 => labels (monitoredAddresses w2)
                              = labels (monitoredAddresses w1))
                (checkTransaction address data) (tx :: txs)) with (w := w)
      as (w1 & -> & L1).
    + reflexivity.
    + intros; congruence.
    + intros x w0 _. apply checkTransaction_labels.
    + eexists; split; [reflexivity | exact L1].
Qed.

Lemma checkTransactions_labels feed w :
  exists w',
    checkTransactions feed w = (Ok tt, w') /\
    labels (monitoredAddresses w') = labels (monitoredAddresses w).
Proof.
  unfold checkTransactions, bind at 1, gets.
  apply (for_of_preserves
           (fun w1 w2 => labels (monitoredAddresses w2)
                         = labels (monitoredAddresses w1))).
  - reflexivity.
  - intros; congruence.
  - intros entry w0 _. apply checkAddress_labels.
Qed.



(** *** After the startup pass *)

Lemma init_get feed w :
  exists w',
    init feed w = (Ok tt, w') /\
    forall a,
      Obj.get a (monitoredAddresses w')
        = option_map (synced feed a) (Obj.get a (monitoredAddresses w)).
Proof.
  unfold init, bind at 1, gets at 1. unfold bind at 1.
  destruct (sync_loop feed (monitoredAddresses w) w) as (w1 & -> & G1 & _).
  unfold bind at 1, saveAddresses, modify at 1.
  unfold bind at 1, console_log, modify at 1.
  unfold bind at 1, modify at 1, with_initializing.
  unfold bind at 1, gets.
  match goal with
  | |- context [sendNotification ?m ?w0] =>
      destruct (sendNotification_frame m w0) as (w2 & -> & (M2 & _) & _)
  end.
  exists w2; split; [reflexivity|].
  intros a. rewrite M2. cbn.
  destruct (G1 a) as [Gin Gout].
  destruct (in_dec string_dec a (Obj.keys (monitoredAddresses w)))
    as [Hin|Hout].
  - exact (Gin Hin).
  - rewrite (Gout Hout).
    destruct (Obj.get a (monitoredAddresses w)) as [d|] eqn:G;
      [|reflexivity].
    exfalso. exact (Hout (get_in_keys _ _ _ G)).
Qed.

Lemma synced_settles feed (later : Feed) a d :
  (forall s tx, In tx (later a s) -> In tx (feed a (Num 0))) ->
  forall s tx, In tx (later a s) ->
    settled_at (parseInt (blockNumber tx)) (lastBlock (synced feed a d)).
Proof.
  intros Hseen s tx Htx. specialize (Hseen s tx Htx).
  unfold synced.
  assert (Hin : In (parseInt (blockNumber tx)) (blocksOf (feed a (Num 0)))).
  { unfold blocksOf.
    exact (in_map (fun t => parseInt (blockNumber t)) _ _ Hseen). }
  destruct (blocksOf (feed a (Num 0))) as [|b bs]; [destruct Hin|].
  cbn [advance lastBlock]. apply Math_max_settles. exact Hin.
Qed.

(** X12. What the startup fetch has seen is never announced.  After the
    startup pass, a tick that gets only records that the fetch from block 0
    returned for the same address sends nothing and moves no watermark,
    whether or not the block numbers parse. *)
Theorem startup_history_is_not_announced (feed later : Feed) (w : World)
  (Hseen : forall a s tx, In tx (later a s) -> In tx (feed a (Num 0))) :
  let w1 := run (init feed) w in
  outbox (run (checkTransactions later) w1) = outbox w1 /\
  monitoredAddresses (run (checkTransactions later) w1)
    = monitoredAddresses w1.
Proof.
  cbv zeta. apply quiet_tick.
  destruct (init_get feed w) as (w1 & E & G).
  unfold run. rewrite E. cbn [snd].
  intros a d1 G1 tx Htx. rewrite G in G1.
  destruct (Obj.get a (monitoredAddresses w)) as [d|]; [|discriminate].
  injection G1 as <-.
  exact (synced_settles feed later a d (Hseen a) _ tx Htx).
Qed.





(** *** What a tick sends and keeps *)

Lemma checkTransaction_initializing address data tx w :
  isInitializing w = true ->
  exists w',
    checkTransaction address data tx w = (Ok tt, w') /\
    outbox w' = outbox w /\ channel w' = channel w /\
    isInitializing w' = true.
Proof.
  intros Hinit.
  destruct (JsNum.gtb (parseInt (blockNumber tx))
              (currentBlock address data w)) eqn:Hgt.
  - rewrite (checkTransaction_new address data tx w Hgt), Hinit.
    cbn. eexists; split; [reflexivity|]. cbn. repeat split. exact Hinit.
  - destruct (checkTransaction_cases address data tx w) as (w' & E & H).
    rewrite Hgt in H. subst w'. exists w. repeat split; assumption.
Qed.

Lemma checkAddress_initializing feed entry w :
  isInitializing w = true ->
  exists w',
    checkAddress feed entry w = (Ok tt, w') /\
    outbox w' = outbox w /\ channel w' = channel w /\
    isInitializing w' = true.
Proof.
  intros Hinit. destruct entry as [address data]. rewrite checkAddress_eq.
  destruct (feed address _) as [|tx txs].
  - exists w. repeat split; assumption.
  - unfold bind.
    destruct (for_of_preserves
                (fun w1 w2 => isInitializing w1 = true ->
                   outbox w2 = outbox w1 /\ channel w2 = channel w1 /\
                   isInitializing w2 = true)
                (checkTransaction address data) (tx :: txs)) with (w := w)
      as (w1 & -> & H1).
    + intros w0 H0. repeat split; assumption.
    + intros w1 w2 w3 H12 H23 H1.
      destruct (H12 H1) as (O2 & C2 & I2).
      destruct (H23 I2) as (O3 & C3 & I3). repeat split; congruence.
    + intros x w0 _.
      destruct (checkTransaction_step address data x w0) as (w1 & E1 & _).
      exists w1; split; [exact E1|]. intros H0.
      destruct (checkTransaction_initializing address data x w0 H0)
        as (w1' & E1' & H).
      rewrite E1 in E1'. injection E1' as <-. exact H.
    + destruct (H1 Hinit) as (O1 & C1 & I1).
      eexists; split; [reflexivity|]. cbn. repeat split; assumption.
Qed.

(** X14. While [isInitializing] is set, a tick makes no call of
    [bot.sendMessage], whatever the feed returns, and still moves the
    watermark of an address to the block of each new record. *)
Theorem tick_while_initializing_is_silent (feed : Feed) (w : World)
  (Hinit : isInitializing w = true) :
  outbox (run (checkTransactions feed) w) = outbox w /\
  channel (run (checkTransactions feed) w) = channel w /\
  (forall address data d tx,
     Obj.get address (monitoredAddresses w) = Some d ->
     JsNum.gtb (parseInt (blockNumber tx)) (lastBlock d) = true ->
     Obj.get address
       (monitoredAddresses (run (checkTransaction address data tx) w))
       = Some (mkAddressData (parseInt (blockNumber tx)) (remark d))).
Proof.
  assert (Htick : exists w',
            checkTransactions feed w = (Ok tt, w') /\
            (isInitializing w = true ->
             outbox w' = outbox w /\ channel w' = channel w /\
             isInitializing w' = true)).
  { unfold checkTransactions, bind at 1, gets.
    apply (for_of_preserves
             (fun w1 w2 => isInitializing w1 = true ->
                outbox w2 = outbox w1 /\ channel w2 = channel w1 /\
                isInitializing w2 = true)).
    - intros w0 H0. repeat split; assumption.
    - intros w1 w2 w3 H12 H23 H1.
      destruct (H12 H1) as (O2 & C2 & I2).
      destruct (H23 I2) as (O3 & C3 & I3). repeat split; congruence.
    - intros entry w0 _.
      destruct (checkAddress_step feed entry w0) as (w1 & E1 & _).
      exists w1; split; [exact E1|]. intros H0.
      destruct (checkAddress_initializing feed entry w0 H0)
        as (w1' & E1' & H).
      rewrite E1 in E1'. injection E1' as <-. exact H. }
  destruct Htick as (w' & E & H). destruct (H Hinit) as (O & C & _).
  unfold run at 1 2. rewrite E. cbn [snd].
  split; [exact O|]. split; [exact C|].
  intros address data d tx Hget Hgt.
  destruct (checkTransaction_cases address data tx w) as (w1 & E1 & H1).
  unfold currentBlock in H1. rewrite Hget, Hgt in H1.
  destruct H1 as (M1 & _). unfold run. rewrite E1. cbn [snd].
  rewrite M1, get_adjust, String.eqb_refl, Hget. reflexivity.
Qed.

Lemma sendNotification_outbox message w :
  exists w' new,
    sendNotification message w = (Ok tt, w') /\
    outbox w' = (new ++ outbox w)%list /\ to_operator new /\
    (length new <= 1)%nat.
Proof.
  unfold sendNotification, try_catch, bot_sendMessage, console_log, modify,
    ret, to_operator.
  destruct message as [m|]; [destruct (Str.truthy m)|]; cbn.
  - destruct (channel w) as [|[|] rest]; cbn;
      eexists _, [_]; (split; [reflexivity|]);
      (split; [reflexivity|]); (split; [repeat constructor | cbn; lia]).
  - exists w, []. repeat split; [constructor | cbn; lia].
  - exists w, []. repeat split; [constructor | cbn; lia].
Qed.

Lemma checkTransaction_outbox address data tx w :
  exists w' new,
    checkTransaction address data tx w = (Ok tt, w') /\
    outbox w' = (new ++ outbox w)%list /\ to_operator new /\
    (length new <= 1)%nat.
Proof.
  destruct (JsNum.gtb (parseInt (blockNumber tx))
              (currentBlock address data w)) eqn:Hgt.
  - rewrite (checkTransaction_new address data tx w Hgt).
    destruct (isInitializing w); cbn [negb].
    + cbn. eexists _, []. split; [reflexivity|]. cbn.
      repeat split; [constructor | lia].
    + unfold bind at 1. unfold bind at 1.
      match goal with
      | |- context [formatTransaction tx address ?w0] =>
          destruct (formatTransaction_frame tx address w0)
            as (message & w1 & -> & _ & O1 & _)
      end.
      destruct (sendNotification_outbox message w1)
        as (w2 & new & -> & O2 & T2 & N2).
      cbn. eexists _, new. split; [reflexivity|]. cbn.
      rewrite O2, O1. cbn. repeat split; assumption.
  - destruct (checkTransaction_cases address data tx w) as (w' & E & H).
    rewrite Hgt in H. subst w'. exists w, [].
    repeat split; [assumption | constructor | cbn; lia].
Qed.

Lemma records_outbox address data (txs : list TransferRecord) : forall w,
  exists w' new,
    for_of txs (checkTransaction address data) w = (Ok tt, w') /\
    outbox w' = (new ++ outbox w)%list /\ to_operator new /\
    (length new <= length txs)%nat.
Proof.
  induction txs as [|tx txs IH]; intros w; cbn [for_of].
  - exists w, []. repeat split; [constructor | cbn; lia].
  - unfold bind.
    destruct (checkTransaction_outbox address data tx w)
      as (w1 & new1 & -> & O1 & T1 & N1).
    destruct (IH w1) as (w2 & new2 & -> & O2 & T2 & N2).
    exists w2, (new2 ++ new1)%list. split; [reflexivity|].
    split; [rewrite O2, O1; apply app_assoc|].
    split; [apply Forall_app; split; assumption|].
    rewrite length_app. cbn. lia.
Qed.

(** X15. A tick writes to the configured chat only, and the pass over an
    address sends at most one alert per record that the feed returned. *)
Theorem alerts_go_to_the_operator (feed : Feed) (w : World) :
  (exists new,
     outbox (run (checkTransactions feed) w) = (new ++ outbox w)%list /\
     to_operator new) /\
  (forall address data,
     exists new,
       outbox (run (checkAddress feed (address, data)) w)
         = (new ++ outbox w)%list /\
       to_operator new /\
       (length new
          <= length (feed address (currentBlock address data w)))%nat).
Proof.
  assert (Hpass : forall address data w0,
            exists w' new,
              checkAddress feed (address, data) w0 = (Ok tt, w') /\
              outbox w' = (new ++ outbox w0)%list /\ to_operator new /\
              (length new
                 <= length (feed address (currentBlock address data w0)))%nat).
  { intros address data w0. rewrite checkAddress_eq.
    destruct (feed address _) as [|tx txs].
    - exists w0, []. repeat split; [constructor | cbn; lia].
    - unfold bind.
      destruct (records_outbox address data (tx :: txs) w0)
        as (w1 & new & -> & O1 & T1 & N1).
      eexists _, new. split; [reflexivity|]. cbn.
      repeat split; assumption. }
  split.
  - unfold run, checkTransactions, bind at 1, gets.
    destruct (for_of_preserves
                (fun w1 w2 => exists new,
                   outbox w2 = (new ++ outbox w1)%list /\ to_operator new)
                (checkAddress feed) (monitoredAddresses w)) with (w := w)
      as (w' & -> & H).
    + intros w0. exists []. split; [reflexivity | constructor].
    + intros w1 w2 w3 (n1 & O1 & T1) (n2 & O2 & T2).
      exists (n2 ++ n1)%list. split; [rewrite O2, O1; apply app_assoc|].
      apply Forall_app; split; assumption.
    + intros [address data] w0 _.
      destruct (Hpass address data w0) as (w1 & new & E & O & T & _).
      exists w1; split; [exact E|]. exists new; split; assumption.
    + exact H.
  - intros address data.
    destruct (Hpass address data w) as (w1 & new & E & O & T & N).
    unfold run. rewrite E. exists new. repeat split; assumption.
Qed.

(** X16. A tick changes watermarks and nothing else in the stores: the
    monitored addresses, their order and their labels, the blacklist, the
    blacklist file and [isInitializing] are as before. *)
Theorem tick_touches_watermarks_only (feed : Feed) (w : World) :
  let w' := run (checkTransactions feed) w in
  labels (monitoredAddresses w') = labels (monitoredAddresses w) /\
  blacklistedContracts w' = blacklistedContracts w /\
  blacklistFile w' = blacklistFile w /\
  isInitializing w' = isInitializing w.
Proof.
  cbv zeta.
  destruct (checkTransactions_labels feed w) as (w1 & E & L).
  destruct (checkTransactions_step feed w) as (w1' & E' & _ & B & I & F).
  rewrite E in E'. injection E' as <-.
  unfold run. rewrite E. cbn [snd]. repeat split; assumption.
Qed.


(** *** Well-formed maps *)

Lemma lower_ascii_idem (c : ascii) :
  Str.lower_ascii (Str.lower_ascii c) = Str.lower_ascii c.
Proof.
  destruct c as [[|] [|] [|] [|] [|] [|] [|] [|]]; vm_compute; reflexivity.
Qed.

Lemma toLowerCase_idem (s : string) :
  Str.toLowerCase (Str.toLowerCase s) = Str.toLowerCase s.
Proof.
  induction s as [|c s IH]; simpl; [reflexivity|].
  rewrite lower_ascii_idem, IH. reflexivity.
Qed.

Lemma canonical_key (arg : string) :
  Str.isAddressFormat (Str.toLowerCase (Str.trim arg)) = true ->
  canonical (Str.toLowerCase (Str.trim arg)).
Proof. intros H. split; [exact H | apply toLowerCase_idem]. Qed.

Lemma wellformed_set {V} (k : string) (v : V) (o : Obj.t V) :
  wellformed o -> canonical k -> Obj.get k o = None ->
  wellformed (Obj.set k v o).
Proof.
  intros (Hnd & Hall) Hk Habsent. rewrite (set_absent _ _ _ Habsent).
  unfold wellformed, Obj.keys. rewrite map_app. cbn [map fst]. split.
  - apply NoDup_app; [exact Hnd | repeat constructor; intros [] |].
    intros a Ha [<-|[]]. exact (get_none_not_in _ _ Habsent Ha).
  - apply Forall_app. split; [exact Hall|].
    constructor; [exact Hk | constructor].
Qed.

Lemma wellformed_delete {V} (k : string) (o : Obj.t V) :
  wellformed o -> wellformed (Obj.delete k o).
Proof.
  intros (Hnd & Hall). unfold wellformed. rewrite keys_delete. split.
  - apply NoDup_filter. exact Hnd.
  - eapply incl_Forall; [apply incl_filter | exact Hall].
Qed.

Lemma wellformed_adjust {V} (f : V -> V) (k : string) (o : Obj.t V) :
  wellformed o -> wellformed (Obj.adjust f k o).
Proof. unfold wellformed. rewrite keys_adjust. tauto. Qed.

Lemma wellformed_labels (o o' : Obj.t AddressData) :
  labels o' = labels o -> wellformed o -> wellformed o'.
Proof.
  unfold wellformed. intros L. rewrite !labels_keys, L. tauto.
Qed.

(** X18. The maps stay well formed.  When the keys of the watch-list and
    of the blacklist are distinct, lower-case and of the address shape,
    they still are after every command, from any chat and on any argument,
    after a tick and after the startup pass. *)
Theorem maps_stay_wellformed (w : World)
  (Hwf : wellformed (monitoredAddresses w) /\
         wellformed (blacklistedContracts w)) :
  let wf w' :=
    wellformed (monitoredAddresses w') /\
    wellformed (blacklistedContracts w') in
  (forall feed chat arg, wf (run (onAdd feed chat arg) w)) /\
  (forall chat arg, wf (run (onRemove chat arg) w)) /\
  (forall chat arg text, wf (run (onRemark chat arg text) w)) /\
  (forall now chat arg, wf (run (onBlacklist now chat arg) w)) /\
  (forall chat arg, wf (run (onUnblacklist chat arg) w)) /\
  (forall feed, wf (run (checkTransactions feed) w)) /\
  (forall feed, wf (run (init feed) w)).
Proof.
  destruct Hwf as [Ha Hb]. cbv zeta.
  split; [|split; [|split; [|split; [|split; [|split]]]]].
  - intros feed chat arg. unfold run.
    destruct (onAdd feed chat arg w) as [r w'] eqn:E. unfold onAdd in E.
    handler_branches E w; split; try assumption;
      apply wellformed_set; try assumption; apply canonical_key; assumption.
  - intros chat arg. unfold run.
    destruct (onRemove chat arg w) as [r w'] eqn:E. unfold onRemove in E.
    handler_branches E w; split; try assumption;
      apply wellformed_delete; assumption.
  - intros chat arg text. unfold run.
    destruct (onRemark chat arg text w) as [r w'] eqn:E.
    unfold onRemark in E.
    handler_branches E w; split; try assumption;
      apply wellformed_adjust; assumption.
  - intros now chat arg. unfold run.
    destruct (onBlacklist now chat arg w) as [r w'] eqn:E.
    unfold onBlacklist in E.
    handler_branches E w; split; try assumption;
      apply wellformed_set; try assumption; apply canonical_key; assumption.
  - intros chat arg. unfold run.
    destruct (onUnblacklist chat arg w) as [r w'] eqn:E.
    unfold onUnblacklist in E.
    handler_branches E w; split; try assumption;
      apply wellformed_delete; assumption.
  - intros feed.
    destruct (checkTransactions_labels feed w) as (w1 & E & L).
    destruct (checkTransactions_step feed w) as (w1' & E' & _ & B & _).
    rewrite E in E'. injection E' as <-.
    unfold run. rewrite E. cbn [snd]. rewrite B.
    split; [exact (wellformed_labels _ _ L Ha) | exact Hb].
  - intros feed.
    destruct (init_files feed w) as (w1 & E & _ & B & _ & L & _).
    unfold run. rewrite E. cbn [snd]. rewrite B.
    split; [exact (wellformed_labels _ _ L Ha) | exact Hb].
Qed.

(** *** Rounding at a scale boundary *)

Lemma Qfloor_between (x : Q) (z : Z) :
  (inject_Z z <= x)%Q -> (x < inject_Z (z + 1))%Q -> Qfloor x = z.
Proof.
  intros Hl Hu. apply Z.le_antisymm.
  - assert (H : (inject_Z (Qfloor x) < inject_Z (z + 1))%Q)
      by (eapply Qle_lt_trans; [apply Qfloor_le | exact Hu]).
    rewrite <- Zlt_Qlt in H. lia.
  - rewrite <- (Qfloor_Z z). apply Qfloor_resp_le. exact Hl.
Qed.

Lemma toFixed2_up_to_1000 (q : Q) :
  (999995 # 1000 <= q)%Q -> (q < 1000 # 1)%Q ->
  toFixed2 numberToString (Real q) = "1000.00".
Proof.
  intros Hl Hu. unfold toFixed2. cbv zeta.
  assert (Hneg : JsReal.Qltb q 0 = false).
  { unfold JsReal.Qltb. apply negb_false_iff. apply Qle_bool_iff. lra. }
  rewrite Hneg.
  assert (Hbig : Qle_bool e21 q = false).
  { destruct (Qle_bool e21 q) eqn:E; [|reflexivity].
    apply Qle_bool_iff in E. unfold e21 in E. lra. }
  rewrite Hbig.
  assert (Hfloor : Qfloor (q * (100 # 1) + (1 # 2)) = 100000).
  { apply Qfloor_between.
    - change (inject_Z 100000) with (100000 # 1). lra.
    - change (inject_Z (100000 + 1)) with (100001 # 1). lra. }
  rewrite Hfloor. reflexivity.
Qed.

(** X19. The scale is chosen before the rounding.  A value that is below a
    scale boundary by less than half a hundredth of the scale in use is
    rendered as 1000.00 in that scale, not as 1.00 in the next one:
    999.995 up to 1000 gives ["1000.00"], 999995 up to 1e6 gives
    ["1000.00K"], 999995000 up to 1e9 gives ["1000.00M"]. *)
Theorem formatAmount_rounds_past_the_boundary (v : Q) :
  ((999995 # 1000 <= v)%Q -> (v < e3)%Q ->
   formatAmount numberToString (Real v) = "1000.00") /\
  ((999995 # 1 <= v)%Q -> (v < e6)%Q ->
   formatAmount numberToString (Real v) = "1000.00K") /\
  ((999995000 # 1 <= v)%Q -> (v < e9)%Q ->
   formatAmount numberToString (Real v) = "1000.00M").
Proof.
  unfold formatAmount, e3, e6, e9. split; [|split]; intros Hl Hu.
  - rewrite !geb_false by lra.
    apply toFixed2_up_to_1000; assumption.
  - rewrite (geb_false v (1000000000 # 1)), (geb_false v (1000000 # 1)),
      (geb_true v (1000 # 1)) by lra.
    cbn [JsReal.div]. rewrite toFixed2_up_to_1000; [reflexivity | |].
    + apply Qle_shift_div_l; lra.
    + apply Qlt_shift_div_r; lra.
  - rewrite (geb_false v (1000000000 # 1)), (geb_true v (1000000 # 1)) by lra.
    cbn [JsReal.div]. rewrite toFixed2_up_to_1000; [reflexivity | |].
    + apply Qle_shift_div_l; lra.
    + apply Qlt_shift_div_r; lra.
Qed.

(** *** Labels *)


(** *** Keys and the form that commands give them *)

Lemma is_space_lower (c : ascii) :
  Str.is_space (Str.lower_ascii c) = Str.is_space c.
Proof.
  destruct c as [[|] [|] [|] [|] [|] [|] [|] [|]]; vm_compute; reflexivity.
Qed.

Lemma trimStart_lower (s : string) :
  Str.trimStart (Str.toLowerCase s) = Str.toLowerCase (Str.trimStart s).
Proof.
  induction s as [|c s IH]; simpl; [reflexivity|].
  rewrite is_space_lower. destruct (Str.is_space c); [exact IH | reflexivity].
Qed.

Lemma trimEnd_lower (s : string) :
  Str.trimEnd (Str.toLowerCase s) = Str.toLowerCase (Str.trimEnd s).
Proof.
  induction s as [|c s IH]; simpl; [reflexivity|].
  rewrite IH, is_space_lower.
  destruct (Str.trimEnd s); simpl; [|reflexivity].
  destruct (Str.is_space c); reflexivity.
Qed.

Lemma trim_lower (s : string) :
  Str.trim (Str.toLowerCase s) = Str.toLowerCase (Str.trim s).
Proof. unfold Str.trim. rewrite trimStart_lower. apply trimEnd_lower. Qed.

Lemma trimEnd_idem (s : string) :
  Str.trimEnd (Str.trimEnd s) = Str.trimEnd s.
Proof.
  induction s as [|c s IH]; simpl; [reflexivity|].
  destruct (Str.trimEnd s) as [|c' t] eqn:E.
  - destruct (Str.is_space c) eqn:Hc; simpl; [reflexivity|].
    rewrite Hc. reflexivity.
  - cbn [Str.trimEnd]. fold Str.trimEnd.
    change (match Str.trimEnd (String c' t) with
            | EmptyString =>
                if Str.is_space c then EmptyString else String c EmptyString
            | String a s0 => String c (String a s0)
            end = String c (String c' t)).
    rewrite IH. reflexivity.
Qed.

Lemma trimStart_head (s : string) :
  match Str.trimStart s with
  | String c _ => Str.is_space c = false
  | EmptyString => True
  end.
Proof.
  induction s as [|c s IH]; simpl; [exact I|].
  destruct (Str.is_space c) eqn:Hc; [exact IH | exact Hc].
Qed.

Lemma trim_head (s : string) :
  match Str.trim s with
  | String c _ => Str.is_space c = false
  | EmptyString => True
  end.
Proof.
  unfold Str.trim. pose proof (trimStart_head s) as H.
  destruct (Str.trimStart s) as [|c t]; simpl; [exact I|].
  destruct (Str.trimEnd t); [rewrite H|]; exact H.
Qed.

Lemma trim_idem (s : string) : Str.trim (Str.trim s) = Str.trim s.
Proof.
  pose proof (trim_head s) as H. unfold Str.trim at 1.
  assert (Hstart : Str.trimStart (Str.trim s) = Str.trim s).
  { destruct (Str.trim s) as [|c t]; simpl; [reflexivity|].
    rewrite H. reflexivity. }
  rewrite Hstart. unfold Str.trim. apply trimEnd_idem.
Qed.

(** What a command makes of its argument is in command form. *)
Lemma command_form (arg : string) :
  Str.toLowerCase (Str.trim (Str.toLowerCase (Str.trim arg)))
    = Str.toLowerCase (Str.trim arg).
Proof. rewrite trim_lower, trim_idem. apply toLowerCase_idem. Qed.

Lemma out_of_reach (k arg : string) :
  Str.toLowerCase (Str.trim k) <> k -> Str.toLowerCase (Str.trim arg) <> k.
Proof. intros Hk E. apply Hk. rewrite <- E. apply command_form. Qed.

Lemma eqb_other (k a : string) : k <> a -> String.eqb k a = false.
Proof. intros H. apply String.eqb_neq. exact H. Qed.


(** *** Loading *)

(** X22. The address of the environment.  On a fresh process without an
    addresses file, [loadAddresses] makes a non-empty MONITOR_ADDRESS the
    only monitored address, under its lower-case form and without any
    check of its shape, and writes the watch-list at once.  [/remove] of
    that address, in any letter case, then empties the watch-list; when the
    variable has blanks around it no [/remove] does. *)
Theorem environment_address_and_remove (files : list (Obj.t AddressData))
  (lists : list (Obj.t BlacklistEntry)) (script : list bool)
  (blacklist : option (Obj.t BlacklistEntry)) (initialAddress : string)
  (Hset : Str.truthy initialAddress = true) :
  let key := Str.toLowerCase initialAddress in
  let w1 :=
    run (loadAddresses None blacklist (Some initialAddress))
      (boot files lists script) in
  monitoredAddresses w1 = [(key, mkAddressData (Num 0) None)] /\
  addressesFile w1 = [(key, mkAddressData (Num 0) None)] :: files /\
  (forall arg,
     Str.toLowerCase (Str.trim arg) = key ->
     monitoredAddresses (run (onRemove (chatId config) arg) w1) = []) /\
  (Str.trim initialAddress = initialAddress ->
   monitoredAddresses (run (onRemove (chatId config) initialAddress) w1)
     = []) /\
  (Str.trim key <> key ->
   forall chat arg,
     monitoredAddresses (run (onRemove chat arg) w1) = monitoredAddresses w1).
Proof.
  cbv zeta.
  assert (Hmap : monitoredAddresses
                   (run (loadAddresses None blacklist (Some initialAddress))
                      (boot files lists script))
                 = [(Str.toLowerCase initialAddress,
                     mkAddressData (Num 0) None)]).
  { unfold run, loadAddresses, boot. rewrite Hset.
    destruct blacklist; reflexivity. }
  assert (Hfile : addressesFile
                    (run (loadAddresses None blacklist (Some initialAddress))
                       (boot files lists script))
                  = [(Str.toLowerCase initialAddress,
                      mkAddressData (Num 0) None)] :: files).
  { unfold run, loadAddresses, boot. rewrite Hset.
    destruct blacklist; reflexivity. }
  remember (run (loadAddresses None blacklist (Some initialAddress))
              (boot files lists script)) as w1 eqn:Hw1.
  clear Hw1.
  assert (Hremove : forall arg,
            Str.toLowerCase (Str.trim arg) = Str.toLowerCase initialAddress ->
            monitoredAddresses (run (onRemove (chatId config) arg) w1) = []).
  { intros arg Harg.
    assert (Hget : Obj.get (Str.toLowerCase (Str.trim arg))
                     (monitoredAddresses w1)
                   = Some (mkAddressData (Num 0) None)).
    { rewrite Hmap, Harg. simpl. rewrite String.eqb_refl. reflexivity. }
    unfold run. rewrite (onRemove_present_eq arg w1 _ Hget).
    cbv zeta. run_handler.
    destruct (channel w1) as [|[|] ?]; cbn;
      rewrite Hmap, Harg; simpl; rewrite String.eqb_refl; reflexivity. }
  split; [exact Hmap|]. split; [exact Hfile|]. split; [exact Hremove|].
  split.
  - intros Htrim. apply Hremove. rewrite Htrim. reflexivity.
  - intros Hblank chat arg.
    assert (Hne : Str.toLowerCase (Str.trim arg)
                  <> Str.toLowerCase initialAddress).
    { apply out_of_reach. rewrite <- trim_lower, toLowerCase_idem.
      exact Hblank. }
    unfold run.
    destruct (onRemove chat arg w1) as [r w'] eqn:E. unfold onRemove in E.
    destruct (String.eqb chat (chatId config)); cbn [negb] in E.
    + unfold bind at 1, gets at 1 in E.
      assert (Hget : Obj.get (Str.toLowerCase (Str.trim arg))
                       (monitoredAddresses w1) = None).
      { rewrite Hmap. simpl. rewrite (eqb_other _ _ Hne). reflexivity. }
      rewrite Hget in E. unfold reply, detached, bot_sendMessage in E.
      destruct (channel w1) as [|[|] ?]; cbn in E;
        injection E as <- <-; reflexivity.
    + injection E as <- <-. reflexivity.
Qed.

(** *** A watermark that is not a number *)

Lemma fold_max_NaN (bs : list jsnum) : fold_left JsNum.max2 bs NaN = NaN.
Proof. induction bs as [|b bs IH]; simpl; [reflexivity | exact IH]. Qed.

Lemma Math_max_NaN (b : jsnum) (bs : list jsnum) :
  In NaN (b :: bs) -> JsNum.Math_max b bs = NaN.
Proof.
  unfold JsNum.Math_max. revert b.
  induction bs as [|y bs IH]; intros b [->|Hin]; simpl.
  - reflexivity.
  - destruct Hin.
  - apply fold_max_NaN.
  - destruct Hin as [->|Hin].
    + destruct b; apply fold_max_NaN.
    + apply IH. right. exact Hin.
Qed.

Lemma gtb_NaN (x : jsnum) : JsNum.gtb x NaN = false.
Proof. destruct x; reflexivity. Qed.

(** X23. A watermark that is not a number freezes its address.  [/add] of
    an address whose fetched history holds a record with an unparsable
    block number stores [lastBlock] NaN; and for an address whose
    [lastBlock] is NaN no pass ever sends an alert or moves the watermark,
    whatever the feed returns, so it stays NaN after any number of
    ticks. *)
Theorem nan_watermark_is_frozen (address : string) (w : World) :
  (forall feed arg w0 tx,
     Str.isAddressFormat (Str.toLowerCase (Str.trim arg)) = true ->
     Obj.get (Str.toLowerCase (Str.trim arg)) (monitoredAddresses w0)
       = None ->
     In tx (feed (Str.toLowerCase (Str.trim arg)) (Num 0)) ->
     parseInt (blockNumber tx) = NaN ->
     Obj.get (Str.toLowerCase (Str.trim arg))
       (monitoredAddresses (run (onAdd feed (chatId config) arg) w0))
       = Some (mkAddressData NaN None)) /\
  (forall d,
     Obj.get address (monitoredAddresses w) = Some d ->
     lastBlock d = NaN ->
     (forall feed data,
        outbox (run (checkAddress feed (address, data)) w) = outbox w /\
        monitoredAddresses (run (checkAddress feed (address, data)) w)
          = monitoredAddresses w) /\
     (forall feeds,
        exists d',
          Obj.get address (monitoredAddresses (ticks feeds w)) = Some d' /\
          lastBlock d' = NaN)).
Proof.
  split.
  - intros feed arg w0 tx Hformat Habsent Hin Hnan.
    assert (Hblocks : In NaN (blocksOf (feed (Str.toLowerCase (Str.trim arg))
                                          (Num 0)))).
    { rewrite <- Hnan. unfold blocksOf.
      exact (in_map (fun t => parseInt (blockNumber t)) _ _ Hin). }
    unfold run. rewrite (onAdd_fresh_eq feed arg w0 Hformat Habsent).
    cbv zeta.
    destruct (blocksOf (feed (Str.toLowerCase (Str.trim arg)) (Num 0)))
      as [|b bs]; [destruct Hblocks|].
    rewrite (Math_max_NaN b bs Hblocks).
    run_handler.
    destruct (channel w0) as [|[|] ?]; cbn; apply get_set_same.
  - intros d Hget Hnan. split.
    + intros feed data.
      destruct (checkAddress_quiet feed address data w) as (w' & E & M & O).
      * intros tx _. unfold currentBlock. rewrite Hget, Hnan.
        apply gtb_NaN.
      * unfold run. rewrite E. split; assumption.
    + intros feeds. destruct (ticks_step feeds w) as (F & _).
      destruct (F address d Hget) as (d' & G & L).
      exists d'. split; [exact G|].
      rewrite Hnan in L.
      destruct L as [<-|(x & y & Hx & _)]; [reflexivity | discriminate].
Qed.

(** *** Where a pass leaves the watermark *)

Lemma records_highest address data (txs : list TransferRecord) :
  forall w d L,
    Obj.get address (monitoredAddresses w) = Some d ->
    lastBlock d = Num L ->
    exists w',
      for_of txs (checkTransaction address data) w = (Ok tt, w') /\
      Obj.get address (monitoredAddresses w')
        = Some (mkAddressData (Num (highest L (blocksOf txs))) (remark d)).
Proof.
  induction txs as [|tx txs IH]; intros w d L Hget HL; cbn [for_of].
  - exists w. split; [reflexivity|]. rewrite Hget. destruct d as [l r].
    simpl in HL. subst l. reflexivity.
  - unfold bind.
    destruct (checkTransaction_cases address data tx w) as (w1 & -> & H).
    unfold currentBlock in H. rewrite Hget, HL in H.
    unfold highest, blocksOf. cbn [map fold_left].
    destruct (parseInt (blockNumber tx)) as [|z] eqn:Hb; cbn [JsNum.gtb] in H.
    + subst w1. exact (IH w d L Hget HL).
    + destruct (Z.ltb L z) eqn:Hlt.
      * destruct H as (M1 & _).
        assert (G1 : Obj.get address (monitoredAddresses w1)
                     = Some (advance (Num z) d))
          by (rewrite M1, get_adjust, String.eqb_refl, Hget; reflexivity).
        destruct (IH w1 (advance (Num z) d) z G1 eq_refl) as (w2 & E2 & G2).
        exists w2. split; [exact E2|].
        apply Z.ltb_lt in Hlt. rewrite Z.max_r by lia. exact G2.
      * subst w1. apply Z.ltb_ge in Hlt. rewrite Z.max_l by lia.
        exact (IH w d L Hget HL).
Qed.

(** X24. A pass leaves the watermark at the highest block it has seen.
    For an address whose [lastBlock] is the number [L], the pass of a tick
    over the fetched records ends with [lastBlock] at the highest of [L]
    and the block numbers of the records, in whatever order they come;
    block numbers that do not parse are passed over, and the label is
    kept. *)
Theorem pass_ends_at_highest_block (feed : Feed) (address : string)
  (data d : AddressData) (L : Z) (w : World)
  (Hmonitored : Obj.get address (monitoredAddresses w) = Some d)
  (Hblock : lastBlock d = Num L) :
  Obj.get address
    (monitoredAddresses (run (checkAddress feed (address, data)) w))
  = Some (mkAddressData
            (Num (highest L (blocksOf (feed address (Num L))))) (remark d)).
Proof.
  unfold run. rewrite checkAddress_eq.
  unfold currentBlock. rewrite Hmonitored, Hblock.
  destruct (feed address (Num L)) as [|tx txs] eqn:Hfeed.
  - cbn. rewrite Hmonitored. destruct d as [l r]. simpl in Hblock.
    subst l. reflexivity.
  - unfold bind.
    destruct (records_highest address data (tx :: txs) w d L Hmonitored
                Hblock) as (w1 & -> & G1).
    cbn. exact G1.
Qed.

End Bot.


(** ** Concrete runs *)

Example parseInt_dec : parseInt "105" = Num 105.
Proof. reflexivity. Qed.
Example parseInt_hex : parseInt " 0x1F" = Num 31.
Proof. reflexivity. Qed.
Example parseInt_junk : parseInt "abc" = NaN.
Proof. reflexivity. Qed.
Example parseInt_prefix : parseInt "-12px" = Num (-12).
Proof. reflexivity. Qed.
Example utf8_literal : String.length "未命名" = 9%nat.
Proof. reflexivity. Qed.

Example toFixed2_tie : toFixed2 Sample.numberToString (Real (1 # 8)) = "0.13".
Proof. reflexivity. Qed.
Example toFixed2_negative : toFixed2 Sample.numberToString (Real (- (1 # 1000))) = "-0.00".
Proof. reflexivity. Qed.
Example formatAmount_small : formatAmount Sample.numberToString (Real (5 # 100)) = "0.05".
Proof. reflexivity. Qed.
Example formatAmount_billion : formatAmount Sample.numberToString (Real (12345678901 # 1)) = "12.35B".
Proof. reflexivity. Qed.
Example formatAmount_nan : formatAmount Sample.numberToString RNaN = "NaN".
Proof. reflexivity. Qed.

Example lowercase_is_case_insensitive :
  Str.toLowerCase (Str.trim "  0xAAAAAAAAAAAAAAAAAAAAAAAAAAAAAAAAAAAAAAAA ")
    = Sample.alice.
Proof. reflexivity. Qed.

Example address_format :
  Str.isAddressFormat Sample.alice = true /\
  Str.isAddressFormat "0xabc" = false /\
  Str.isAddressFormat "0xgggggggggggggggggggggggggggggggggggggggg" = false.
Proof. repeat split. Qed.

Example alert_text :
  outbox
    (run (checkTransactions Sample.numberToString Sample.toLocaleString
            Sample.config (Sample.always [Sample.r106]))
       (Sample.world 100 []))
  = [mkSent "42"
       ("【未命名】 📤 卖出" ++ nl ++ "Token (TKN)" ++ nl ++
        "CA: " ++ Sample.token ++ nl ++ "数量: 1.50K" ++ nl ++
        "地址: " ++ Sample.alice ++ nl ++ "时间: ?") true].
Proof. reflexivity. Qed.

Import Sample.


(** C2 at a concrete input: the watermark is 105 and the response holds
    blocks 100, 101 and 105. *)
Lemma no_replay_at_or_below_watermark_witness :
  (forall tx, In tx (always [r100; r101; r105] alice (Num 105)) ->
     JsNum.leb (parseInt (blockNumber tx)) (Num 105) = true) /\
  outbox (run (checkAddress numberToString toLocaleString config
               (always [r100; r101; r105]) (alice, entry 105))
            (world 105 [])) = [].
Proof.
  assert (Hold : forall tx, In tx (always [r100; r101; r105] alice (Num 105)) ->
            JsNum.leb (parseInt (blockNumber tx)) (Num 105) = true).
  { intros tx [<-|[<-|[<-|[]]]]; reflexivity. }
  split; [exact Hold|].
  exact (proj1 (proj2 (no_replay_at_or_below_watermark numberToString
                         toLocaleString config (always [r100; r101; r105])
                         (world 105 []) alice (entry 105) 105
                         eq_refl eq_refl Hold))).
Defined.






(** C6: the claim fails.  The response holds one record, at the watermark:
    no record is new and the snapshot is written all the same. *)
Lemma snapshot_written_without_new_record :
  always [r100] alice (Num 100) = [r100] /\
  JsNum.gtb (parseInt (blockNumber r100)) (Num 100) = false /\
  addressesFile (world 100 []) = [] /\
  addressesFile
    (run (checkAddress numberToString toLocaleString config (always [r100])
            (alice, entry 100)) (world 100 []))
    = [[(alice, entry 100)]].
Proof. repeat split. Qed.

(** C6, as amended, at the scenario of the claim. *)
Lemma snapshot_written_once_per_nonempty_response_witness :
  result (checkTransactions numberToString toLocaleString config
            (always [r100; r101; r105])) (world 100 []) = Ok tt /\
  monitoredAddresses
    (run (checkTransactions numberToString toLocaleString config
            (always [r100; r101; r105])) (world 100 []))
    = [(alice, entry 105)] /\
  outbox
    (run (checkTransactions numberToString toLocaleString config
            (always [r100; r101; r105])) (world 100 [])) = [] /\
  addressesFile
    (run (checkTransactions numberToString toLocaleString config
            (always [r100; r101; r105])) (world 100 []))
    = [[(alice, entry 105)]].
Proof.
  destruct (snapshot_written_once_per_nonempty_response numberToString
              toLocaleString config (always [r100; r101; r105]) alice
              (entry 100) (world 100 [])) as (_ & _ & Hscenario).
  exact (Hscenario r100 r101 r105
           (mkBlacklistEntry "2024-01-01T00:00:00.000Z") None
           eq_refl eq_refl eq_refl eq_refl eq_refl eq_refl eq_refl eq_refl).
Defined.





(** ** Concrete runs of the further properties *)

Import Fixture.

(** X1 at a concrete input: [/remove] of a monitored address from chat 7. *)
Lemma foreign_chat_is_ignored_witness :
  "7" <> chatId config /\
  onRemove config "7" alice (world 100 []) = (Ok tt, world 100 []).
Proof.
  assert (H : "7" <> chatId config) by discriminate.
  split; [exact H|].
  destruct (foreign_chat_is_ignored config "7" (world 100 []) H)
    as (_ & Hremove & _).
  exact (Hremove alice).
Defined.

(** X2 at a concrete input: [/list] when nothing is monitored. *)
Lemma reading_commands_change_nothing_witness :
  monitoredAddresses blank = [] /\
  replied "42" list_empty blank (run (onList config "42") blank).
Proof.
  split; [reflexivity|].
  destruct (reading_commands_change_nothing config blank)
    as (_ & Hempty & _).
  exact (Hempty eq_refl).
Defined.

(** X3 at a concrete input: [carol], typed in upper case with blanks, has
    transfers at blocks 100 and 105. *)
Lemma add_appends_address_witness :
  Str.isAddressFormat (Str.toLowerCase (Str.trim carolTyped)) = true /\
  Obj.get (Str.toLowerCase (Str.trim carolTyped))
    (monitoredAddresses (world 100 [])) = None /\
  monitoredAddresses
    (run (onAdd config (always [r100; r105]) "42" carolTyped) (world 100 []))
  = [(alice, entry 100); (carol, entry 105)].
Proof.
  split; [reflexivity|]. split; [reflexivity|].
  destruct (add_appends_address config (always [r100; r105]) carolTyped
              (world 100 []) eq_refl eq_refl) as (_ & Hmap & _).
  exact Hmap.
Defined.

(** X4 at a concrete input. *)
Lemma remove_deletes_address_witness :
  Obj.get (Str.toLowerCase (Str.trim alice)) (monitoredAddresses (world 100 []))
    = Some (entry 100) /\
  Obj.get alice
    (monitoredAddresses (run (onRemove config "42" alice) (world 100 [])))
    = None.
Proof.
  split; [reflexivity|].
  destruct (remove_deletes_address config alice (world 100 []) (entry 100)
              eq_refl) as (_ & Hgone & _).
  exact Hgone.
Defined.

(** X5 at a concrete input: [carol] is added as typed and removed in lower
    case. *)
Lemma add_then_remove_restores_witness :
  Str.toLowerCase (Str.trim carol) = Str.toLowerCase (Str.trim carolTyped) /\
  monitoredAddresses
    (run (onRemove config "42" carol)
       (run (onAdd config (always [r100; r105]) "42" carolTyped)
          (world 100 [])))
  = [(alice, entry 100)].
Proof.
  split; [reflexivity|].
  exact (add_then_remove_restores config (always [r100; r105]) carolTyped
           carol (world 100 []) eq_refl eq_refl eq_refl).
Defined.


(** X7 at a concrete input: the contract of [r100] is blacklisted in upper
    case. *)
Lemma blacklist_silences_contract_witness :
  Str.isAddressFormat (Str.toLowerCase (Str.trim tokenTyped)) = true /\
  result (formatTransaction numberToString toLocaleString config r100 alice)
    (run (onBlacklist config "2024-05-05T00:00:00.000Z" "42" tokenTyped)
       (world 100 []))
  = Ok None.
Proof.
  split; [reflexivity|].
  destruct (blacklist_silences_contract numberToString toLocaleString config
              "2024-05-05T00:00:00.000Z" tokenTyped (world 100 []) eq_refl)
    as (Hsilent & _).
  exact (Hsilent r100 alice eq_refl).
Defined.


(** X9 at a concrete input. *)
Lemma blacklist_then_unblacklist_restores_witness :
  Obj.get (Str.toLowerCase (Str.trim tokenTyped))
    (blacklistedContracts (world 100 [])) = None /\
  blacklistedContracts
    (run (onUnblacklist config "42" token)
       (run (onBlacklist config "2024-05-05T00:00:00.000Z" "42" tokenTyped)
          (world 100 [])))
  = listed.
Proof.
  split; [reflexivity|].
  exact (blacklist_then_unblacklist_restores config
           "2024-05-05T00:00:00.000Z" tokenTyped token (world 100 [])
           eq_refl eq_refl eq_refl).
Defined.

(** X10 at a concrete input: a tick that moves the watermark. *)
Lemma files_follow_maps_witness :
  (addresses_in_sync (persisted 100 []) /\
   blacklist_in_sync (persisted 100 [])) /\
  addresses_in_sync
    (run (checkTransactions numberToString toLocaleString config
            (always [r100; r101; r105])) (persisted 100 [])) /\
  blacklist_in_sync
    (run (checkTransactions numberToString toLocaleString config
            (always [r100; r101; r105])) (persisted 100 [])).
Proof.
  assert (H : addresses_in_sync (persisted 100 []) /\
              blacklist_in_sync (persisted 100 []))
    by (split; reflexivity).
  split; [exact H|].
  destruct (files_follow_maps numberToString toLocaleString config
              (persisted 100 []) H) as (Htick & _).
  exact (Htick (always [r100; r101; r105])).
Defined.


(** X12 at a concrete input: the tick gets the startup history in another
    order. *)
Lemma startup_history_is_not_announced_witness :
  (forall a s tx, In tx (always [r106; r100] a s) ->
     In tx (always [r100; r106] a (Num 0))) /\
  outbox
    (run (checkTransactions numberToString toLocaleString config
            (always [r106; r100]))
       (run (init numberToString config (always [r100; r106]))
          (world 10 [])))
  = outbox (run (init numberToString config (always [r100; r106]))
              (world 10 [])).
Proof.
  assert (H : forall a s tx, In tx (always [r106; r100] a s) ->
                In tx (always [r100; r106] a (Num 0))).
  { intros a s tx [<-|[<-|[]]]; simpl; auto. }
  split; [exact H|].
  destruct (startup_history_is_not_announced numberToString toLocaleString
              config (always [r100; r106]) (always [r106; r100])
              (world 10 []) H) as (Hout & _).
  exact Hout.
Defined.

(** X14 at a concrete input: an outgoing transfer while the process
    starts. *)
Lemma tick_while_initializing_is_silent_witness :
  isInitializing (starting 100 []) = true /\
  outbox
    (run (checkTransactions numberToString toLocaleString config
            (always [r106])) (starting 100 [])) = [].
Proof.
  split; [reflexivity|].
  destruct (tick_while_initializing_is_silent numberToString toLocaleString
              config (always [r106]) (starting 100 []) eq_refl)
    as (Hout & _).
  exact Hout.
Defined.


(** X18 at a concrete input: [/add] of [carol]. *)
Lemma maps_stay_wellformed_witness :
  (wellformed (monitoredAddresses (world 100 [])) /\
   wellformed (blacklistedContracts (world 100 []))) /\
  wellformed
    (monitoredAddresses
       (run (onAdd config (always [r105]) "42" carolTyped) (world 100 []))).
Proof.
  assert (H : wellformed (monitoredAddresses (world 100 [])) /\
              wellformed (blacklistedContracts (world 100 []))).
  { split; (split; simpl;
            [constructor; [intros [] | constructor]
            |constructor; [split; reflexivity | constructor]]). }
  split; [exact H|].
  destruct (maps_stay_wellformed numberToString toLocaleString config
              (world 100 []) H) as (Hadd & _).
  exact (proj1 (Hadd (always [r105]) "42" carolTyped)).
Defined.

(** X19 at a concrete input: 999.999. *)
Lemma formatAmount_rounds_past_the_boundary_witness :
  (999995 # 1000 <= 999999 # 1000)%Q /\ (999999 # 1000 < e3)%Q /\
  formatAmount numberToString (Real (999999 # 1000)) = "1000.00".
Proof.
  assert (Hl : (999995 # 1000 <= 999999 # 1000)%Q) by discriminate.
  assert (Hu : (999999 # 1000 < e3)%Q) by reflexivity.
  split; [exact Hl|]. split; [exact Hu|].
  exact (proj1 (formatAmount_rounds_past_the_boundary numberToString
                  (999999 # 1000)) Hl Hu).
Defined.



(** X22 at a concrete input: MONITOR_ADDRESS in upper case, removed in
    lower case. *)
Lemma environment_address_and_remove_witness :
  Str.truthy "0xAAAAAAAAAAAAAAAAAAAAAAAAAAAAAAAAAAAAAAAA" = true /\
  monitoredAddresses
    (run (onRemove config "42" alice)
       (run (loadAddresses None None
               (Some "0xAAAAAAAAAAAAAAAAAAAAAAAAAAAAAAAAAAAAAAAA"))
          (boot [] [] [])))
  = [].
Proof.
  split; [reflexivity|].
  destruct (environment_address_and_remove config [] [] [] None
              "0xAAAAAAAAAAAAAAAAAAAAAAAAAAAAAAAAAAAAAAAA" eq_refl)
    as (_ & _ & Hremove & _).
  exact (Hremove alice eq_refl).
Defined.

(** X23 at a concrete input: the history of [carol] holds a record whose
    block number does not parse; [carol] is added and then gets a transfer
    at block 106. *)
Lemma nan_watermark_is_frozen_witness :
  parseInt (blockNumber unparsed) = NaN /\
  Obj.get carol
    (monitoredAddresses
       (run (onAdd config (always [r100; unparsed]) "42" carol)
          (world 100 [])))
    = Some (mkAddressData NaN None) /\
  outbox
    (run (checkAddress numberToString toLocaleString config (always [r106])
            (carol, mkAddressData NaN None))
       (run (onAdd config (always [r100; unparsed]) "42" carol)
          (world 100 [])))
  = outbox (run (onAdd config (always [r100; unparsed]) "42" carol)
              (world 100 [])).
Proof.
  split; [reflexivity|].
  destruct (nan_watermark_is_frozen numberToString toLocaleString config carol
              (run (onAdd config (always [r100; unparsed]) "42" carol)
                 (world 100 [])))
    as (Hadd & Hfrozen).
  assert (Hget : Obj.get carol
            (monitoredAddresses
               (run (onAdd config (always [r100; unparsed]) "42" carol)
                  (world 100 [])))
            = Some (mkAddressData NaN None)).
  { exact (Hadd (always [r100; unparsed]) carol (world 100 []) unparsed
             eq_refl eq_refl (or_intror (or_introl eq_refl)) eq_refl). }
  split; [exact Hget|].
  destruct (Hfrozen (mkAddressData NaN None) Hget eq_refl) as (Hpass & _).
  exact (proj1 (Hpass (always [r106]) (mkAddressData NaN None))).
Defined.

(** X24 at a concrete input: the records come at blocks 105, an unparsable
    one, 5 and 101, on a watermark of 100. *)
Lemma pass_ends_at_highest_block_witness :
  Obj.get alice (monitoredAddresses (world 100 [])) = Some (entry 100) /\
  Obj.get alice
    (monitoredAddresses
       (run (checkAddress numberToString toLocaleString config
               (always [r105; unparsed; r5; r101]) (alice, entry 100))
          (world 100 [])))
  = Some (entry 105).
Proof.
  split; [reflexivity|].
  exact (pass_ends_at_highest_block numberToString toLocaleString config
           (always [r105; unparsed; r5; r101]) alice (entry 100) (entry 100)
           100 (world 100 []) eq_refl eq_refl).
Defined.
